(** * fjoin: a path join that filenamifies every path element

    Shallow embedding of [internal/tests/fjoin/fjoin.go].  [Join] calls the
    Go standard library ([strings.Split], [filepath.IsAbs],
    [filepath.Clean], [filepath.Join]; embedded here for Unix, where the
    separator is [/] and there are no volume names) and the per-element
    sanitizer [filenamify.Filenamify] of an imported package.

    Go strings are byte sequences; they are embedded as [string], one
    [ascii] per byte. *)

From Stdlib Require Import Bool Arith List Ascii String Lia.
Import ListNotations.

Open Scope string_scope.
Open Scope list_scope.

(** ** Package [strings] *)
Module strings.

(** [strings.Split(s, "/")]: the pieces of [s] between separators; always
    at least one piece, [Split ""] being [[""]]. *)
Fixpoint Split (s : string) : list string :=
  match s with
  | EmptyString => [""]
  | String c s' =>
      if Ascii.eqb c "/" then "" :: Split s'
      else match Split s' with
           | [] => [String c ""]
           | elem :: rest => String c elem :: rest
           end
  end.

(** [strings.Join(elems, "/")]. *)
Definition Join (elems : list string) : string := String.concat "/" elems.

(** [strings.HasPrefix(s, "/")]. *)
Definition HasPrefixSep (s : string) : bool :=
  match s with
  | String c _ => Ascii.eqb c "/"
  | EmptyString => false
  end.

End strings.

(** ** Package [path/filepath] (Unix: separator [/], no volume names) *)
Module filepath.

Definition Separator : string := "/".

(** [filepath.IsAbs]: on Unix a path is absolute when it begins with the
    separator. *)
Definition IsAbs (path : string) : bool := strings.HasPrefixSep path.

(** One round of the loop [for r < n] of [filepath.Clean], which reads the
    path element by element.  [out] is the output buffer, as the list of the
    elements written so far with the last written element first.  An empty
    element and [.] are skipped.  On [..] the loop backtracks over the last
    written element when the buffer holds one above the mark [dotdot], that
    is, one that is not itself a leading [..] ([out.w > dotdot]); otherwise
    it appends [..] to an unrooted path and does nothing at the root of a
    rooted one.  Any other element is appended. *)
Definition cleanElem (rooted : bool) (out : list string) (elem : string)
  : list string :=
  if elem =? "" then out
  else if elem =? "." then out
  else if elem =? ".." then
    match out with
    | last :: before => if last =? ".." then elem :: out else before
    | [] => if rooted then [] else [elem]
    end
  else elem :: out.

Definition cleanElems (rooted : bool) (elems : list string) : list string :=
  rev (fold_left (cleanElem rooted) elems []).

(** [filepath.Clean]: the shortest path equivalent to [path] by purely
    lexical processing.  The empty path becomes [.]; a rooted path keeps its
    single leading separator; an unrooted path whose elements all cancel
    becomes [.]. *)
Definition Clean (path : string) : string :=
  if path =? "" then "."
  else
    let rooted := IsAbs path in
    let out := cleanElems rooted (strings.Split path) in
    if rooted then Separator ++ strings.Join out
    else match out with
         | [] => "."
         | _ => strings.Join out
         end.

(** [filepath.Join]: the elements from the first non-empty one on, joined
    with the separator and cleaned; the empty string when there is no
    non-empty element. *)
Fixpoint Join (elem : list string) : string :=
  match elem with
  | [] => ""
  | e :: rest =>
      if e =? "" then Join rest else Clean (strings.Join elem)
  end.

End filepath.

(** ** Package [filenamify] *)
Module filenamify.

(** The error value of Go, carried as its message. *)
Definition error : Type := string.

(** The options of the sanitizer; line 17 sets the one field [Join] uses. *)
Record Options : Type := { Replacement : string }.

(** Modelled from the spec: the unsafe characters of section 4.1, the
    characters not permitted in a file name on the strictest common platform:
    the reserved characters, [<] and [>] among them, and the control
    characters.  The separator is one of them; the space and [_] are not. *)
Definition reserved : list ascii :=
  ["<"; ">"; ":"; "034"; "/"; "\"; "|"; "?"; "*"]%char.

(** Modelled from the spec: whether a character is unsafe. *)
Definition unsafe (c : ascii) : bool :=
  existsb (Ascii.eqb c) reserved || Nat.ltb (nat_of_ascii c) 32.

(** [s] is a run of unsafe characters. *)
Fixpoint allUnsafe (s : string) : bool :=
  match s with
  | EmptyString => true
  | String c s' => unsafe c && allUnsafe s'
  end.

(** [s] holds no unsafe character. *)
Fixpoint allSafe (s : string) : bool :=
  match s with
  | EmptyString => true
  | String c s' => negb (unsafe c) && allSafe s'
  end.

(** Modelled from the spec: section 4.1, step 3, a run of unsafe characters
    at the start of the atom is removed. *)
Fixpoint stripLeading (s : string) : string :=
  match s with
  | EmptyString => ""
  | String c s' => if unsafe c then stripLeading s' else s
  end.

(** Modelled from the spec: section 4.1, step 3, behind the leading run.
    The safe characters are copied; a run of unsafe characters followed by a
    safe character lies strictly inside the atom and yields [replacement]
    once; a run that reaches the end of the atom yields nothing. *)
Fixpoint replaceRuns (replacement s : string) : string :=
  match s with
  | EmptyString => ""
  | String c s' =>
      if unsafe c then
        match s' with
        | EmptyString => ""
        | String d _ =>
            if unsafe d then replaceRuns replacement s'
            else replacement ++ replaceRuns replacement s'
        end
      else String c (replaceRuns replacement s')
  end.

(** Modelled from the spec: [filenamify.Filenamify] of the imported package
    [github.com/flytam/filenamify], whose source is not among the source
    files; section 9 takes its entire behaviour to be section 4.1, step 3
    and the table of section 8.  Following step 3: the maximal runs of
    unsafe characters of the atom are found; a run strictly inside the atom
    is replaced by the replacement once; a run at the start or at the end is
    removed; an atom made of unsafe characters only becomes the
    replacement; an atom without unsafe characters is returned unchanged.
    The spec lets the sanitizer fail but names no string on which it
    does: the model returns no error, and when the package fails is left
    open. *)
Definition Filenamify (str : string) (options : Options)
  : string * option error :=
  match str with
  | EmptyString => ("", None)
  | String _ _ =>
      if allUnsafe str then (Replacement options, None)
      else (replaceRuns (Replacement options) (stripLeading str), None)
  end.

End filenamify.

(** ** Package [fjoin] *)
Module fjoin.

Import filenamify.

(** What a call of [Join] does: it returns its pair of results, or the
    run-time panics. *)
Inductive outcome : Type :=
| Return (path : string) (err : option error)
| Panic.

Section WithSanitizer.

(** The sanitizer called at line 32. *)
Variable Filenamify : string -> Options -> string * option error.

Definition opts : Options := {| Replacement := "_" |}.

(** The inner loop, lines 28-37: [namified] grows by the sanitized
    non-empty elements; the first error of the sanitizer ends the call. *)
Fixpoint namifyElems (splitted namified : list string)
  : list string + error :=
  match splitted with
  | [] => inl namified
  | elem :: rest =>
      if elem =? "" then namifyElems rest namified
      else
        match Filenamify elem opts with
        | (_, Some err) => inr err
        | (fixed, None) => namifyElems rest (namified ++ [fixed])
        end
  end.

(** The outer loop, lines 22-38. *)
Fixpoint namifyParts (parts namified : list string)
  : list string + error :=
  match parts with
  | [] => inl namified
  | part :: rest =>
      if part =? "" then namifyParts rest namified
      else
        let partCl := filepath.Clean part in
        let splitted := strings.Split partCl in
        match namifyElems splitted namified with
        | inr err => inr err
        | inl namified' => namifyParts rest namified'
        end
  end.

(** [Join], lines 15-45.  [parts[0]] at line 20 is evaluated before the
    loop: with no argument the index is out of range and the call
    panics. *)
Definition JoinWith (parts : list string) : outcome :=
  match parts with
  | [] => Panic
  | first :: _ =>
      let isAbs := filepath.IsAbs first in
      match namifyParts parts [] with
      | inr err => Return "" (Some err)
      | inl namified =>
          let joined := filepath.Join namified in
          Return (if isAbs then filepath.Separator ++ joined else joined)
                 None
      end
  end.

End WithSanitizer.

(** [Join] with the sanitizer of package [filenamify]. *)
Definition Join (parts : list string) : outcome :=
  JoinWith filenamify.Filenamify parts.

End fjoin.

Import filenamify fjoin.

Local Open Scope string_scope.

(** ** Vocabulary of the properties *)

Definition isSep (c : ascii) : bool := Ascii.eqb c "/".

(** [s] holds no separator: it is a single path element. *)
Fixpoint noSep (s : string) : bool :=
  match s with
  | EmptyString => true
  | String c s' => negb (isSep c) && noSep s'
  end.

Definition nonEmpty (s : string) : bool := negb (s =? "").

(** A path element: not empty, and without separator. *)
Definition isElem (s : string) : bool := nonEmpty s && noSep s.

(** A sanitized element: not empty, and without unsafe character. *)
Definition goodAtom (s : string) : bool := nonEmpty s && allSafe s.

(** The sanitizer as a function to the sanitized name. *)
Definition fixedBy (san : string -> Options -> string * option error)
  (elem : string) : string := fst (san elem opts).

(** The elements [Join] hands to the sanitizer for one argument, and for all
    arguments, in order. *)
Definition atomsOfPart (part : string) : list string :=
  if part =? "" then []
  else filter nonEmpty (strings.Split (filepath.Clean part)).

Definition atomsOf (parts : list string) : list string :=
  flat_map atomsOfPart parts.

(** [s] contains two adjacent separators. *)
Fixpoint doubledSep (s : string) : bool :=
  match s with
  | EmptyString => false
  | String c s' =>
      match s' with
      | EmptyString => false
      | String d _ => (isSep c && isSep d) || doubledSep s'
      end
  end.

(** [s] ends with a separator. *)
Fixpoint trailingSep (s : string) : bool :=
  match s with
  | EmptyString => false
  | String c s' =>
      match s' with
      | EmptyString => isSep c
      | String _ _ => trailingSep s'
      end
  end.

(** [s] contains an unsafe character other than the separator. *)
Fixpoint rawUnsafe (s : string) : bool :=
  match s with
  | EmptyString => false
  | String c s' => (unsafe c && negb (isSep c)) || rawUnsafe s'
  end.

(** The components of a path: what stands between its separators, the
    leading separator of an absolute path apart.  The empty path and the
    root have none. *)
Definition components (path : string) : list string :=
  let rel := match path with
             | String c s' => if isSep c then s' else path
             | EmptyString => path
             end in
  match rel with
  | EmptyString => []
  | String _ _ => strings.Split rel
  end.




(** The error of the first element, in order, that the sanitizer rejects. *)
Fixpoint firstError (san : string -> Options -> string * option error)
  (elems : list string) : option error :=
  match elems with
  | [] => None
  | elem :: rest =>
      match snd (san elem opts) with
      | Some err => Some err
      | None => firstError san rest
      end
  end.

(** A sanitizer that rejects every element, to exercise the error path. *)
Definition rejecting (str : string) (options : Options)
  : string * option error :=
  ("", Some "filenamify: cannot process element").

(** An element that [filepath.Clean] keeps as it is: a good atom other than
    [.] and [..]. *)
Definition plain (e : string) : bool :=
  goodAtom e && negb (e =? ".") && negb (e =? "..").

(** The output buffer of [filepath.Clean] on an unrooted path, last element
    first: every element is plain or is [..], and below a [..] there are
    only [..]. *)
Fixpoint cleaned (out : list string) : bool :=
  match out with
  | [] => true
  | e :: below =>
      (plain e
       || (e =? "..") && match below with
                         | [] => true
                         | e' :: _ => e' =? ".."
                         end)
      && cleaned below
  end.

(** No doubled separator, no trailing separator, no raw unsafe character. *)
Definition tidy (s : string) : Prop :=
  doubledSep s = false /\ trailingSep s = false /\ rawUnsafe s = false.

(** A joined path behind the separator of an absolute result, or as it
    is. *)
Definition prefixed (isAbs : bool) (joined : string) : string :=
  (if isAbs then "/" else "") ++ joined.

(** The cases of the test functions [TestRelative], [TestAbsolute],
    [TestEmptyComponents] and [TestPeculiarities] and of the suites [std] and
    [peculiarities]: arguments and expected path. *)
Definition testCases : list (list string * string) :=
  [ (["a"], "a"); (["a/b/"], "a/b"); (["a"; "b"], "a/b"); (["a b"], "a b");
    (["a<b"], "a_b"); (["ab<cd"], "ab_cd"); (["<"], "_"); (["</b"], "_/b");
    (["<"; ">"; "/</"], "_/_/_");
    (["/a"], "/a"); (["/a/"], "/a"); (["/a/b/"], "/a/b");
    (["//a/"; "//b/"], "/a/b");
    (["aA"; "b"], "aA/b"); (["aA"; ""; "b"], "aA/b");
    (["aA"; ""; ""; "b"], "aA/b"); ([""; "aA"; "b"], "aA/b");
    (["aA"; "b"; ""], "aA/b");
    ([""; ""; "aA"; ""; ""; "b"; ""; ""], "aA/b");
    (["aA"; "bb"], "aA/bb"); (["aA"; ""; "bb"], "aA/bb");
    (["aA"; ""; ""; "bb"], "aA/bb"); ([""; "aA"; "bb"], "aA/bb");
    (["aA"; "bb"; ""], "aA/bb");
    ([""; ""; "aA"; "bb"], "aA/bb"); (["aA"; "bb"; ""; ""], "aA/bb");
    (["a/A"; "b"; "/"], "a/A/b"); (["a//A"; "b"; "/"], "a/A/b");
    (["a//A/"; "/"; ""; "/b"; "//"; "/"], "a/A/b");
    (["a//A/"; "/"; ""; "/b"], "a/A/b"); (["a//A/"; "/b"; "//"; "/"], "a/A/b");
    (["/a/A"; "b"; "/"], "/a/A/b"); (["/a/A"; "/"; "b"], "/a/A/b");
    (["/a/A"; "b"], "/a/A/b"); (["/"; "a/A"; "b"], "/a/A/b");
    (["//"; "a/A"; "b"], "/a/A/b"); (["/a//A"; "b"; "/"], "/a/A/b");
    (["/a//A/"; "/"; ""; "/b"; "//"; "/"], "/a/A/b");
    (["/a/A/b"; "/"; ""], "/a/A/b"); (["/a/A/"; ""; "/b"], "/a/A/b");
    (["/a/A/b"; "//"; "/"], "/a/A/b");
    (["<b"], "b"); (["b>"], "b"); (["/<b"], "/b"); (["a"; "<b"], "a/b");
    (["a"; "/<b"], "a/b");
    (["a<<b"], "a_b"); (["<<b"], "b"); (["/<<b"], "/b"); (["a"; "<<b"], "a/b");
    (["a"; "/<<b"], "a/b") ]%list.

(** ** Package [tests]: the earlier variant of [Join] *)
Module tests.

Section WithSanitizer.

Variable Filenamify : string -> Options -> string * option error.

(** The outer loop of [FilenamifyJoin], lines 113-125: as in [Join], but
    an empty part is not skipped; it is cleaned to [.] like any other. *)
Fixpoint fixParts (parts fixeds : list string) : list string + error :=
  match parts with
  | []%list => inl fixeds
  | (part :: rest)%list =>
      let partCl := filepath.Clean part in
      let splitted := strings.Split partCl in
      match namifyElems Filenamify splitted fixeds with
      | inr err => inr err
      | inl fixeds' => fixParts rest fixeds'
      end
  end.

(** [FilenamifyJoin], lines 105-131 (the same function is [filenamifyJoin]
    of [man_test.go], lines 78-105). *)
Definition FilenamifyJoinWith (parts : list string) : outcome :=
  match parts with
  | []%list => Panic
  | (first :: _)%list =>
      let isAbs := filepath.IsAbs first in
      match fixParts parts []%list with
      | inr err => Return "" (Some err)
      | inl fixeds =>
          let joined := filepath.Join fixeds in
          Return (if isAbs then filepath.Separator ++ joined else joined)
                 None
      end
  end.

End WithSanitizer.

End tests.

(** ** Package [templ]: [internal/templ/util.go] *)
Module templ.

(** The line feed. *)
Definition newline : ascii := "010"%char.

(** [strings.ReplaceAll(s, old, new)] for an [old] of one byte: every
    occurrence of the byte is replaced; [new] is not read again. *)
Fixpoint ReplaceAllByte (s : string) (old : ascii) (new : string) : string :=
  match s with
  | EmptyString => ""
  | String c s' =>
      if Ascii.eqb c old then new ++ ReplaceAllByte s' old new
      else String c (ReplaceAllByte s' old new)
  end.

(** A [strings.Replacer] whose old strings all have one byte: the pairs as
    given to [strings.NewReplacer]; for a byte, the first pair with that
    old byte decides. *)
Fixpoint replacement (oldnew : list (ascii * string)) (c : ascii)
  : option string :=
  match oldnew with
  | []%list => None
  | ((old, new) :: rest)%list =>
      if Ascii.eqb c old then Some new else replacement rest c
  end.

(** The method [Replace] of [strings.Replacer]: the bytes are replaced from left to
    right; what is written is not read again. *)
Fixpoint Replace (oldnew : list (ascii * string)) (s : string) : string :=
  match s with
  | EmptyString => ""
  | String c s' =>
      match replacement oldnew c with
      | Some new => new ++ Replace oldnew s'
      | None => String c (Replace oldnew s')
      end
  end.

(** Line 51.  The replacer is built on first use and kept; it is the same
    at every call. *)
Definition backslashReplacer : list (ascii * string) :=
  [("-"%char, "\-"); ("_"%char, "\_"); ("&"%char, "\&"); ("\"%char, "\\");
   ("~"%char, "\~")]%list.

(** [Backslashify], lines 49-54. *)
Definition Backslashify (str : string) : string :=
  Replace backslashReplacer str.

(** [Dashify], lines 56-58. *)
Definition Dashify (str : string) : string := ReplaceAllByte str " " "-".

(** [Underscoreify], lines 60-62. *)
Definition Underscoreify (str : string) : string :=
  ReplaceAllByte str " " "_".

(** [multiNewlineRegex.ReplaceAllString(str, repl)] for the expression of
    line 23, a line feed once or more and then a line feed: the matches,
    found from left to right and each as long as it can be, are the maximal
    runs of two or more line feeds; each is replaced by [repl].  [inRun]
    tells that the bytes read last belong to a run already replaced. *)
Fixpoint multiNewlineReplaceAll (repl : string) (inRun : bool) (str : string)
  : string :=
  match str with
  | EmptyString => ""
  | String c s' =>
      if Ascii.eqb c newline then
        if inRun then multiNewlineReplaceAll repl true s'
        else match s' with
             | EmptyString => String c ""
             | String d _ =>
                 if Ascii.eqb d newline
                 then repl ++ multiNewlineReplaceAll repl true s'
                 else String c (multiNewlineReplaceAll repl false s')
             end
      else String c (multiNewlineReplaceAll repl false s')
  end.

(** The test of lines 27 and 38: more than one byte, the first a dot. *)
Definition looksLikeTroff (str : string) : bool :=
  Nat.ltb 1 (String.length str)
  && match str with
     | String c _ => Ascii.eqb c "."
     | EmptyString => false
     end.

(** [SimpleToMdoc], lines 25-34. *)
Definition SimpleToMdoc (str : string) : string :=
  if looksLikeTroff str then str
  else Backslashify
         (multiNewlineReplaceAll
            (String newline (".Pp" ++ String newline "")) false str).

(** [SimpleToTroff], lines 36-45. *)
Definition SimpleToTroff (str : string) : string :=
  if looksLikeTroff str then str
  else Backslashify
         (multiNewlineReplaceAll
            (String newline (".PP" ++ String newline "")) false str).

(** The assignment [b[i] = char] on a slice. *)
Fixpoint setByte (b : list ascii) (i : nat) (char : ascii) : list ascii :=
  match b, i with
  | []%list, _ => []%list
  | (_ :: rest)%list, O => (char :: rest)%list
  | (x :: rest)%list, S i' => (x :: setByte rest i' char)%list
  end.

(** [Makeline], lines 74-80: a slice of [len(str)] zero bytes, each index
    of which is then assigned [char]. *)
Definition Makeline (str : string) (char : ascii) : string :=
  let b := repeat Ascii.zero (String.length str) in
  string_of_list_ascii
    (fold_left (fun b i => setByte b i char) (seq 0 (List.length b)) b).

End templ.

(** [s] holds the byte [c]. *)
Fixpoint hasByte (c : ascii) (s : string) : bool :=
  match s with
  | EmptyString => false
  | String d s' => Ascii.eqb d c || hasByte c s'
  end.

(** [s] begins with a line feed. *)
Definition startsWithNewline (s : string) : bool :=
  match s with
  | EmptyString => false
  | String c _ => Ascii.eqb c templ.newline
  end.

(** [s] holds an empty line: two line feeds in a row. *)
Fixpoint blankLine (s : string) : bool :=
  match s with
  | EmptyString => false
  | String c s' =>
      match s' with
      | EmptyString => false
      | String d _ =>
          (Ascii.eqb c templ.newline && Ascii.eqb d templ.newline)
          || blankLine s'
      end
  end.

(** No byte of [s] is one that [Backslashify] replaces. *)
Fixpoint noEscaped (s : string) : bool :=
  match s with
  | EmptyString => true
  | String c s' =>
      match templ.replacement templ.backslashReplacer c with
      | Some _ => false
      | None => noEscaped s'
      end
  end.

(** Reads a backslash and the byte behind it as that byte. *)
Fixpoint unescape (s : string) : string :=
  match s with
  | EmptyString => ""
  | String c s' =>
      if Ascii.eqb c "\" then
        match s' with
        | EmptyString => String c ""
        | String d s'' => String d (unescape s'')
        end
      else String c (unescape s')
  end.

(** ** Package [cobraman]: [cobraman.go] *)
Module cobraman.

(** Line 34. *)
Definition ErrMissingCommandName : error :=
  "you need a command name to have a man page".

Section Generator.

(** [time.Time], and the type of the values of [CustomData]. *)
Variables Time Data : Type.

(** [Options], lines 38-92. *)
Record Options : Type := {
  Section : string;
  CenterFooter : string;
  Date : option Time;
  LeftFooter : string;
  CenterHeader : string;
  Files : string;
  Bugs : string;
  Environment : string;
  Author : string;
  fileCmdSeparator : string;
  fileSuffix : string;
  CustomData : list (string * Data)
}.

(** [templ.GetTemplate], declared in a file of package [templ] that is not
    among the source files: the separator and the extension registered for
    a template name, and no template ([t == nil]) for an unknown name. *)
Variable GetTemplate : string -> option (string * string).

(** The clock read by [time.Now()] at line 135. *)
Variable now : Time.

(** [validate], lines 130-148.  [opts] is a pointer: the options as the
    call leaves them are returned; [None] is the panic of line 141. *)
Definition validate (opts : Options) (templateName : string)
  : option Options :=
  let opts :=
    if Section opts =? "" then
      {| Section := "1"; CenterFooter := CenterFooter opts;
         Date := Date opts; LeftFooter := LeftFooter opts;
         CenterHeader := CenterHeader opts; Files := Files opts;
         Bugs := Bugs opts; Environment := Environment opts;
         Author := Author opts; fileCmdSeparator := fileCmdSeparator opts;
         fileSuffix := fileSuffix opts; CustomData := CustomData opts |}
    else opts in
  let opts :=
    match Date opts with
    | None =>
        {| Section := Section opts; CenterFooter := CenterFooter opts;
           Date := Some now; LeftFooter := LeftFooter opts;
           CenterHeader := CenterHeader opts; Files := Files opts;
           Bugs := Bugs opts; Environment := Environment opts;
           Author := Author opts; fileCmdSeparator := fileCmdSeparator opts;
           fileSuffix := fileSuffix opts; CustomData := CustomData opts |}
    | Some _ => opts
    end in
  match GetTemplate templateName with
  | None => None
  | Some (sep, ext) =>
      Some {| Section := Section opts; CenterFooter := CenterFooter opts;
              Date := Date opts; LeftFooter := LeftFooter opts;
              CenterHeader := CenterHeader opts; Files := Files opts;
              Bugs := Bugs opts; Environment := Environment opts;
              Author := Author opts; fileCmdSeparator := sep;
              fileSuffix := if ext =? "use_section" then Section opts
                            else ext;
              CustomData := CustomData opts |}
  end.

(** A [cobra.Command], by what the generator asks of it: the results of
    [CommandPath()], [IsAvailableCommand()], [IsAdditionalHelpTopicCommand()]
    and [Commands()]. *)
#[local] Unset Elimination Schemes.
Inductive Command : Type :=
| Cmd (CommandPath : string) (IsAvailableCommand : bool)
      (IsAdditionalHelpTopicCommand : bool) (Commands : list Command).
#[local] Set Elimination Schemes.

(** [os.Create] and the [Close] of the file created, by the name of the
    file; [None] is the nil error. *)
Variables Create Close : string -> option error.

(** The template run by [t.Execute] at line 301 on the values collected
    from the command and the options. *)
Variable Execute : Command -> Options -> option error.

(** [GenerateOnePage], lines 200-306: the options as [validate] leaves them
    and the error of the template; [None] is the panic of [validate]. *)
Definition GenerateOnePage (cmd : Command) (opts : Options)
  (templateName : string) : option (Options * option error) :=
  match validate opts templateName with
  | None => None
  | Some opts => Some (opts, Execute cmd opts)
  end.

(** What a call of [GenerateDocs] does: it panics, or it returns an error,
    having left the options and having created files, in this order. *)
Inductive run : Type :=
| Done (opts : Options) (created : list string) (err : option error)
| Panicked.

(** The loop of lines 103-110 over [cmd.Commands()], [generate] being the
    call of [GenerateDocs] on a subcommand: a subcommand that is not
    available or is a help topic is passed over; the first error ends the
    loop. *)
Definition subcommands (generate : Command -> Options -> run)
  : list Command -> Options -> list string -> run :=
  fix loop (cs : list Command) (opts : Options) (created : list string)
    {struct cs} : run :=
    match cs with
    | []%list => Done opts created None
    | (c :: rest)%list =>
        match c with
        | Cmd _ available helpTopic _ =>
            if negb available || helpTopic then loop rest opts created
            else
              match generate c opts with
              | Panicked => Panicked
              | Done opts created' (Some err) =>
                  Done opts (created ++ created')%list (Some err)
              | Done opts created' None =>
                  loop rest opts (created ++ created')%list
              end
        end
    end.

(** [GenerateDocs], lines 96-128.  The result [err] is named: the deferred
    function of lines 122-124 runs after [return] has assigned it, and
    assigns it again. *)
Fixpoint GenerateDocs (cmd : Command) (opts : Options)
  (directory templateName : string) {struct cmd} : run :=
  match validate opts templateName with
  | None => Panicked
  | Some opts =>
      let directory := if directory =? "" then "." else directory in
      match cmd with
      | Cmd path _ _ commands =>
          match
            subcommands
              (fun c opts => GenerateDocs c opts directory templateName)
              commands opts []%list
          with
          | Panicked => Panicked
          | Done opts created (Some err) => Done opts created (Some err)
          | Done opts created None =>
              let basename :=
                templ.ReplaceAllByte path " " (fileCmdSeparator opts) in
              if basename =? "" then
                Done opts created (Some ErrMissingCommandName)
              else
                let filename :=
                  filepath.Join
                    [directory; basename ++ "." ++ fileSuffix opts] in
                match Create filename with
                | Some err => Done opts created (Some err)
                | None =>
                    match GenerateOnePage cmd opts templateName with
                    | None => Panicked
                    | Some (opts, err) =>
                        let err := Close filename in
                        Done opts (created ++ [filename])%list err
                    end
                end
          end
      end
  end.

End Generator.

(** A [pflag.Flag], by the fields the generator reads. *)
Record Flag : Type := {
  Name : string;
  Shorthand : string;
  Usage : string;
  DefValue : string;
  NoOptDefVal : string;
  Deprecated : string;
  Hidden : bool;
  ShorthandDeprecated : string;
  Annotations : list (string * list string)
}.

(** [manFlag], lines 179-186. *)
Record manFlag : Type := {
  mfShorthand : string;
  mfName : string;
  mfNoOptDefVal : string;
  mfDefValue : string;
  mfUsage : string;
  mfArgHint : string
}.

(** The index expression [m[key]] on a map given by its entries. *)
Fixpoint mapIndex (m : list (string * list string)) (key : string)
  : option (list string) :=
  match m with
  | []%list => None
  | ((k, v) :: rest)%list => if k =? key then Some v else mapIndex rest key
  end.

(** The function passed to [VisitAll], lines 311-329. *)
Definition visitFlag (flagArray : list manFlag) (flag : Flag)
  : list manFlag :=
  if Nat.ltb 0 (String.length (Deprecated flag)) || Hidden flag
  then flagArray
  else
    let shorthand :=
      if ShorthandDeprecated flag =? "" then Shorthand flag else "" in
    let argHint :=
      match mapIndex (Annotations flag) "man-arg-hints" with
      | Some (hint :: _)%list => hint
      | _ => ""
      end in
    (flagArray
     ++ [{| mfShorthand := shorthand; mfName := Name flag;
            mfNoOptDefVal := NoOptDefVal flag; mfDefValue := DefValue flag;
            mfUsage := Usage flag; mfArgHint := argHint |}])%list.

(** [genFlagArray], lines 308-333; [flags] are the flags of the set in the
    order in which [VisitAll] visits them. *)
Definition genFlagArray (flags : list Flag) : list manFlag :=
  fold_left visitFlag flags []%list.

End cobraman.

(** A flag that reaches the page: neither deprecated nor hidden. *)
Definition shownFlag (flag : cobraman.Flag) : bool :=
  negb (Nat.ltb 0 (String.length (cobraman.Deprecated flag))
        || cobraman.Hidden flag).

(** The two templates registered with [RegisterTemplate] in the source
    files, [troff] and [mdoc], with their separator and extension. *)
Definition registered (templateName : string) : option (string * string) :=
  if templateName =? "troff" then Some ("-", "use_section")
  else if templateName =? "mdoc" then Some ("-", "use_section")
  else None.

(** Options with every field unset. *)
Definition unsetOptions : cobraman.Options nat unit :=
  {| cobraman.Section := ""; cobraman.CenterFooter := "";
     cobraman.Date := None; cobraman.LeftFooter := "";
     cobraman.CenterHeader := ""; cobraman.Files := ""; cobraman.Bugs := "";
     cobraman.Environment := ""; cobraman.Author := "";
     cobraman.fileCmdSeparator := ""; cobraman.fileSuffix := "";
     cobraman.CustomData := []%list |}.

(** The same options as [validate] leaves them for [troff] at time [7]. *)
Definition setOptions : cobraman.Options nat unit :=
  {| cobraman.Section := "1"; cobraman.CenterFooter := "";
     cobraman.Date := Some 7; cobraman.LeftFooter := "";
     cobraman.CenterHeader := ""; cobraman.Files := ""; cobraman.Bugs := "";
     cobraman.Environment := ""; cobraman.Author := "";
     cobraman.fileCmdSeparator := "-"; cobraman.fileSuffix := "1";
     cobraman.CustomData := []%list |}.








(** [f] applied to every byte of [s]. *)
Fixpoint mapBytes (f : ascii -> ascii) (s : string) : string :=
  match s with
  | EmptyString => ""
  | String c s' => String (f c) (mapBytes f s')
  end.

(** An argument made of separators only; the empty argument is one. *)
Fixpoint onlySeps (s : string) : bool :=
  match s with
  | EmptyString => true
  | String c s' => isSep c && onlySeps s'
  end.

(** What [FilenamifyJoin] makes of an empty argument. *)
Definition dotForEmpty (part : string) : string :=
  if part =? "" then "." else part.

(** An element that [filepath.Clean] writes to its output as it is. *)
Definition kept (e : string) : bool :=
  negb (e =? "") && negb (e =? ".") && negb (e =? "..").

(** [k] elements [..] in a row, read by [filepath.Clean] over the output
    [out] of an unrooted path. *)
Definition dotdots (k : nat) (out : list string) : list string :=
  Nat.iter k (fun o => filepath.cleanElem false o "..") out.

(** ** The embedding on known values *)

(** [filepath.Clean] on cases of its documentation and test table. *)
Example Clean_known_values :
  map filepath.Clean
    ["abc//def//ghi"; "abc/def/../ghi/../jkl"; "/../abc"; "../../abc";
     "abc/./../def"; "abc/../../././../def"; ""; "/"; "abc/def/../../..";
     "/abc/def/../../.."; "abc/def/../../../ghi/jkl/../../../mno"; "abc/";
     "/abc/"; "."; ".."; "//abc"; "///abc"]%list
  = ["abc/def/ghi"; "abc/jkl"; "/abc"; "../../abc";
     "def"; "../../def"; "."; "/"; "..";
     "/"; "../../mno"; "abc";
     "/abc"; "."; ".."; "/abc"; "/abc"]%list.
Proof. reflexivity. Qed.

Example Split_known_values :
  map strings.Split [""; "a"; "/"; "a/b"; "/a//b/"]%list
  = [[""]; ["a"]; [""; ""]; ["a"; "b"]; [""; "a"; ""; "b"; ""]]%list.
Proof. reflexivity. Qed.

Example filepath_Join_known_values :
  map filepath.Join [[]; [""]; ["a"; "b"]; [""; "a"]; ["a"; ""; "b"];
                     ["a"; ".."]; [""; ""]]%list
  = [""; ""; "a/b"; "a"; "a/b"; "."; ""]%list.
Proof. reflexivity. Qed.

(** The embedding of [Join], with the sanitizer as modelled, passes every
    case of the test files. *)
Lemma Join_passes_tests :
  Forall (fun tc => Join (fst tc) = Return (snd tc) None) testCases.
Proof. repeat constructor. Qed.

(** ** Strings *)



Lemma nonEmpty_true (s : string) : nonEmpty s = true <-> s <> "".
Proof.
  unfold nonEmpty. destruct s; simpl; split; intros H; try easy.
Qed.

Lemma goodAtom_spec (s : string) :
  goodAtom s = true <-> s <> "" /\ allSafe s = true.
Proof.
  unfold goodAtom. rewrite andb_true_iff, nonEmpty_true. reflexivity.
Qed.

Lemma isSep_unsafe (c : ascii) : isSep c = true -> unsafe c = true.
Proof.
  unfold isSep. intros H. apply Ascii.eqb_eq in H. subst c. reflexivity.
Qed.

Lemma allSafe_noSep (s : string) : allSafe s = true -> noSep s = true.
Proof.
  induction s as [|c s IH]; simpl; [reflexivity|].
  rewrite !andb_true_iff, !negb_true_iff. intros [Hc Hs]. split; [|auto].
  destruct (isSep c) eqn:E; [|reflexivity].
  apply isSep_unsafe in E. congruence.
Qed.

Lemma goodAtom_noSep (s : string) : goodAtom s = true -> noSep s = true.
Proof. intros H. apply goodAtom_spec in H. now apply allSafe_noSep. Qed.

Lemma noSep_not_abs (s : string) : noSep s = true -> filepath.IsAbs s = false.
Proof.
  destruct s as [|c s]; simpl; [reflexivity|].
  unfold isSep. destruct (Ascii.eqb c "/"); simpl; [discriminate | reflexivity].
Qed.

(** ** [strings.Split] and [strings.Join] *)

Lemma Split_noSep (s : string) : noSep s = true -> strings.Split s = [s].
Proof.
  induction s as [|c s IH]; simpl; [reflexivity|].
  unfold isSep. destruct (Ascii.eqb c "/"); simpl; [discriminate|].
  intros H. now rewrite IH.
Qed.

Lemma Split_app_sep (a r : string) :
  noSep a = true ->
  strings.Split (a ++ String "/" r) = a :: strings.Split r.
Proof.
  induction a as [|c a IH]; simpl; [reflexivity|].
  unfold isSep. destruct (Ascii.eqb c "/"); simpl; [discriminate|].
  intros H. now rewrite IH.
Qed.

Lemma Split_elems_noSep (s : string) :
  Forall (fun e => noSep e = true) (strings.Split s).
Proof.
  induction s as [|c s IH]; simpl; [repeat constructor|].
  destruct (Ascii.eqb c "/") eqn:E; [now constructor|].
  destruct (strings.Split s) as [|e rest]; [repeat constructor; simpl|].
  - unfold isSep. now rewrite E.
  - inversion IH; subst. constructor; [|assumption].
    simpl. unfold isSep. now rewrite E.
Qed.

Lemma Join_cons (e : string) (l : list string) :
  l <> [] -> strings.Join (e :: l) = e ++ String "/" (strings.Join l).
Proof. destruct l; [congruence | reflexivity]. Qed.

Lemma Split_Join (l : list string) :
  l <> [] -> Forall (fun e => noSep e = true) l ->
  strings.Split (strings.Join l) = l.
Proof.
  induction l as [|e l IH]; [congruence|]. intros _ H.
  inversion H as [|? ? He Hl]; subst.
  destruct l as [|e' l].
  - simpl. now apply Split_noSep.
  - rewrite Join_cons by discriminate.
    rewrite Split_app_sep by assumption.
    f_equal. apply IH; [discriminate | assumption].
Qed.

Lemma Join_head (c : ascii) (e : string) (l : list string) :
  strings.Join (String c e :: l) = String c (strings.Join (e :: l)).
Proof. destruct l; reflexivity. Qed.

Lemma Join_nonempty (e : string) (l : list string) :
  e <> "" -> strings.Join (e :: l) <> "".
Proof.
  destruct e as [|c e]; [congruence|]. intros _.
  rewrite Join_head. discriminate.
Qed.

Lemma Join_not_abs (e : string) (l : list string) :
  e <> "" -> noSep e = true -> filepath.IsAbs (strings.Join (e :: l)) = false.
Proof.
  destruct e as [|c e]; [congruence|]. intros _ H.
  rewrite Join_head. simpl in *. unfold isSep in H.
  destruct (Ascii.eqb c "/"); simpl in *; [discriminate | reflexivity].
Qed.

(** ** Well-formed relative paths *)

Lemma unsafe_false_isSep (c : ascii) : unsafe c = false -> isSep c = false.
Proof.
  intros H. destruct (isSep c) eqn:E; [|reflexivity].
  apply isSep_unsafe in E. congruence.
Qed.

Lemma tidy_safe_cons (c : ascii) (t : string) :
  unsafe c = false -> tidy t -> tidy (String c t).
Proof.
  intros Hc (Hd & Ht & Hr). pose proof (unsafe_false_isSep c Hc) as Hs.
  unfold tidy. simpl. rewrite Hc, Hs. simpl.
  destruct t as [|d t]; auto.
Qed.

Lemma tidy_sep_cons (t : string) :
  t <> "" -> filepath.IsAbs t = false -> tidy t -> tidy (String "/" t).
Proof.
  intros Hne Habs (Hd & Ht & Hr). unfold tidy.
  destruct t as [|d t]; [congruence|].
  simpl in Habs. unfold tidy. cbn [doubledSep trailingSep rawUnsafe].
  unfold isSep at 2. rewrite Habs.
  repeat split; try assumption.
Qed.

Lemma tidy_allSafe (e : string) : allSafe e = true -> tidy e.
Proof.
  induction e as [|c e IH]; [now repeat split|].
  simpl. rewrite andb_true_iff, negb_true_iff. intros [Hc He].
  apply tidy_safe_cons; auto.
Qed.

Lemma tidy_app_sep (e t : string) :
  allSafe e = true -> t <> "" -> filepath.IsAbs t = false -> tidy t ->
  tidy (e ++ String "/" t).
Proof.
  intros He Hne Habs Ht. induction e as [|c e IH]; simpl.
  - now apply tidy_sep_cons.
  - simpl in He. rewrite andb_true_iff, negb_true_iff in He.
    destruct He as [Hc He]. apply tidy_safe_cons; auto.
Qed.

Lemma tidy_Join (l : list string) :
  Forall (fun e => goodAtom e = true) l -> tidy (strings.Join l).
Proof.
  induction l as [|e l IH]; intros H; [now repeat split|].
  inversion H as [|? ? He Hl]; subst. apply goodAtom_spec in He as [Hne Hs].
  destruct l as [|e' l]; [now apply tidy_allSafe|].
  rewrite Join_cons by discriminate.
  inversion Hl as [|? ? He' _]; subst.
  pose proof He' as He''. apply goodAtom_spec in He' as [Hne' Hs'].
  apply tidy_app_sep; auto.
  - now apply Join_nonempty.
  - apply Join_not_abs; [assumption | now apply allSafe_noSep].
Qed.

(** ** [filepath.Clean] on unrooted paths *)

Lemma plain_good (e : string) : plain e = true -> goodAtom e = true.
Proof. unfold plain. rewrite !andb_true_iff. tauto. Qed.

Lemma cleaned_good (out : list string) :
  cleaned out = true -> Forall (fun e => goodAtom e = true) out.
Proof.
  induction out as [|e below IH]; simpl; [constructor|].
  rewrite andb_true_iff, orb_true_iff, andb_true_iff.
  intros [[Hp | [He _]] Hb]; constructor; auto using plain_good.
  apply String.eqb_eq in He. now subst e.
Qed.

Lemma cleanElem_cleaned (out : list string) (e : string) :
  cleaned out = true -> goodAtom e = true ->
  cleaned (filepath.cleanElem false out e) = true.
Proof.
  intros Hout He. unfold filepath.cleanElem.
  destruct (e =? "") eqn:E0; [assumption|].
  destruct (e =? ".") eqn:E1; [assumption|].
  destruct (e =? "..") eqn:E2.
  - apply String.eqb_eq in E2. subst e.
    destruct out as [|last before]; [reflexivity|].
    destruct (last =? "..") eqn:E3.
    + cbn [cleaned] in *. rewrite E3 in *.
      rewrite orb_true_r. exact Hout.
    + simpl in Hout. apply andb_true_iff in Hout. tauto.
  - cbn [cleaned]. unfold plain. rewrite He, E1, E2. simpl. exact Hout.
Qed.

Lemma fold_cleanElem_cleaned (l out : list string) :
  Forall (fun e => goodAtom e = true) l -> cleaned out = true ->
  cleaned (fold_left (filepath.cleanElem false) l out) = true.
Proof.
  revert out. induction l as [|e l IH]; intros out Hl Hout; [assumption|].
  inversion Hl; subst. simpl. apply IH; [assumption|].
  now apply cleanElem_cleaned.
Qed.

Lemma cleanElem_keeps (out : list string) (e : string) :
  cleaned (e :: out) = true -> filepath.cleanElem false out e = e :: out.
Proof.
  cbn [cleaned]. rewrite andb_true_iff, orb_true_iff, andb_true_iff.
  intros [[Hp | [He Hb]] _]; unfold filepath.cleanElem.
  - unfold plain, goodAtom, nonEmpty in Hp.
    rewrite !andb_true_iff, !negb_true_iff in Hp.
    destruct Hp as [[[-> _] ->] ->]. reflexivity.
  - apply String.eqb_eq in He. subst e. simpl.
    destruct out as [|e' out]; [reflexivity|]. now rewrite Hb.
Qed.

Lemma cleaned_fixed (out : list string) :
  cleaned out = true ->
  fold_left (filepath.cleanElem false) (rev out) [] = out.
Proof.
  induction out as [|e out IH]; intros H; [reflexivity|].
  simpl. rewrite fold_left_app. simpl.
  rewrite IH; [now apply cleanElem_keeps|].
  simpl in H. apply andb_true_iff in H. tauto.
Qed.

Lemma cleanElems_good (l : list string) :
  Forall (fun e => goodAtom e = true) l ->
  cleaned (rev (filepath.cleanElems false l)) = true.
Proof.
  intros H. unfold filepath.cleanElems. rewrite rev_involutive.
  now apply fold_cleanElem_cleaned.
Qed.

Lemma cleanElems_Forall_good (l : list string) :
  Forall (fun e => goodAtom e = true) l ->
  Forall (fun e => goodAtom e = true) (filepath.cleanElems false l).
Proof.
  intros H. apply cleanElems_good, cleaned_good in H.
  apply Forall_rev in H. now rewrite rev_involutive in H.
Qed.

Lemma Forall_good_noSep (l : list string) :
  Forall (fun e => goodAtom e = true) l -> Forall (fun e => noSep e = true) l.
Proof. apply Forall_impl. exact goodAtom_noSep. Qed.

(** [Clean] of good atoms joined by separators. *)
Lemma Clean_Join (l : list string) :
  l <> [] -> Forall (fun e => goodAtom e = true) l ->
  filepath.Clean (strings.Join l)
  = match filepath.cleanElems false l with
    | [] => "."
    | out => strings.Join out
    end.
Proof.
  intros Hne H. destruct l as [|e l]; [congruence|].
  pose proof H as H'. inversion H' as [|? ? He _]; subst.
  apply goodAtom_spec in He as [He Hs].
  unfold filepath.Clean.
  destruct (strings.Join (e :: l) =? "") eqn:E.
  - apply String.eqb_eq in E. now apply Join_nonempty in E.
  - rewrite Join_not_abs by auto using allSafe_noSep.
    rewrite Split_Join by auto using Forall_good_noSep.
    cbv zeta. now destruct (filepath.cleanElems false (e :: l)).
Qed.

Lemma filepath_Join_good (l : list string) :
  l <> [] -> Forall (fun e => goodAtom e = true) l ->
  filepath.Join l = filepath.Clean (strings.Join l).
Proof.
  intros Hne H. destruct l as [|e l]; [congruence|].
  inversion H as [|? ? He _]; subst. apply goodAtom_spec in He as [He _].
  simpl. destruct (e =? "") eqn:E; [|reflexivity].
  apply String.eqb_eq in E. congruence.
Qed.

(** The result of [filepath.Join] on good atoms is the join of good atoms
    again: none for no atom, [.] alone when all cancel. *)
Lemma filepath_Join_shape (l : list string) :
  Forall (fun e => goodAtom e = true) l ->
  exists comps,
    Forall (fun e => goodAtom e = true) comps
    /\ filepath.Join l = strings.Join comps
    /\ (comps = [] -> l = []).
Proof.
  intros H. destruct l as [|e l].
  - exists []. repeat split; auto.
  - rewrite filepath_Join_good by (auto; discriminate).
    rewrite Clean_Join by (auto; discriminate).
    pose proof (cleanElems_Forall_good _ H) as Hg.
    destruct (filepath.cleanElems false (e :: l)) as [|o out].
    + exists ["."]. repeat split; try discriminate. now repeat constructor.
    + exists (o :: out). repeat split; try discriminate. assumption.
Qed.

(** A cleaned relative path is a fixed point of [Clean] and splits into its
    elements. *)
Lemma Clean_Join_cleaned (out : list string) :
  out <> [] -> cleaned (rev out) = true ->
  filepath.Clean (strings.Join out) = strings.Join out.
Proof.
  intros Hne H.
  assert (Hg : Forall (fun e => goodAtom e = true) out).
  { apply cleaned_good, Forall_rev in H. now rewrite rev_involutive in H. }
  rewrite Clean_Join by assumption.
  unfold filepath.cleanElems.
  assert (E : out = rev (rev out)) by now rewrite rev_involutive.
  rewrite E at 1. rewrite cleaned_fixed by assumption.
  rewrite rev_involutive. destruct out; [congruence | reflexivity].
Qed.

(** ** Relative paths stay relative *)

Lemma cleanElem_isElem (rooted : bool) (out : list string) (e : string) :
  Forall (fun e => isElem e = true) out -> noSep e = true ->
  Forall (fun e => isElem e = true) (filepath.cleanElem rooted out e).
Proof.
  intros Hout He. unfold filepath.cleanElem.
  destruct (e =? "") eqn:E0; [assumption|].
  destruct (e =? ".") eqn:E1; [assumption|].
  assert (Hel : isElem e = true)
    by (unfold isElem, nonEmpty; now rewrite E0, He).
  destruct (e =? "..") eqn:E2; [|now constructor].
  destruct out as [|last before].
  - destruct rooted; repeat constructor. assumption.
  - destruct (last =? ".."); [now constructor|]. now inversion Hout.
Qed.

Lemma cleanElems_isElem (rooted : bool) (l : list string) :
  Forall (fun e => noSep e = true) l ->
  Forall (fun e => isElem e = true) (filepath.cleanElems rooted l).
Proof.
  intros H. unfold filepath.cleanElems. apply Forall_rev.
  assert (G : forall out, Forall (fun e => isElem e = true) out ->
              Forall (fun e => isElem e = true)
                     (fold_left (filepath.cleanElem rooted) l out)).
  { induction H as [|e l He _ IH]; intros out Hout; [assumption|].
    simpl. apply IH. now apply cleanElem_isElem. }
  apply G. constructor.
Qed.

Lemma Clean_not_abs (path : string) :
  filepath.IsAbs path = false -> filepath.IsAbs (filepath.Clean path) = false.
Proof.
  intros Ha. unfold filepath.Clean.
  destruct (path =? ""); [reflexivity|]. rewrite Ha.
  pose proof (cleanElems_isElem false _ (Split_elems_noSep path)) as H.
  destruct (filepath.cleanElems false (strings.Split path)) as [|e out];
    [reflexivity|].
  inversion H as [|? ? He _]; subst. unfold isElem in He.
  apply andb_true_iff in He as [Hne Hns]. apply nonEmpty_true in Hne.
  now apply Join_not_abs.
Qed.

Lemma filepath_Join_not_abs (l : list string) :
  Forall (fun e => noSep e = true) l ->
  filepath.IsAbs (filepath.Join l) = false.
Proof.
  induction 1 as [|e l He _ IH]; [reflexivity|]. simpl.
  destruct (e =? "") eqn:E; [exact IH|].
  apply Clean_not_abs, Join_not_abs; [|assumption].
  intros ->. discriminate.
Qed.

(** ** The sanitizer *)

Lemma allSafe_app (a b : string) :
  allSafe (a ++ b) = allSafe a && allSafe b.
Proof.
  induction a as [|c a IH]; simpl; [reflexivity|].
  now rewrite IH, andb_assoc.
Qed.



Lemma replaceRuns_safe_cons (r : string) (c : ascii) (s : string) :
  unsafe c = false -> replaceRuns r (String c s) = String c (replaceRuns r s).
Proof. intros H. simpl. now rewrite H. Qed.



Lemma replaceRuns_safe (r s : string) :
  allSafe r = true -> allSafe (replaceRuns r s) = true.
Proof.
  intros Hr. induction s as [|c s IH]; [reflexivity|].
  cbn [replaceRuns]. destruct (unsafe c) eqn:Hc.
  - destruct s as [|d s]; [reflexivity|].
    destruct (unsafe d); [exact IH|].
    rewrite allSafe_app, Hr. exact IH.
  - cbn [allSafe]. rewrite Hc. exact IH.
Qed.



Lemma stripLeading_some_safe (s : string) :
  allUnsafe s = false ->
  exists c t, stripLeading s = String c t /\ unsafe c = false.
Proof.
  induction s as [|c s IH]; [discriminate|].
  cbn [allUnsafe stripLeading]. destruct (unsafe c) eqn:Hc; simpl.
  - exact IH.
  - intros _. now exists c, s.
Qed.

Lemma Filenamify_total (str : string) (options : Options) :
  snd (Filenamify str options) = None.
Proof.
  unfold Filenamify. destruct str; [reflexivity|].
  now destruct (allUnsafe _).
Qed.

Lemma Filenamify_good (elem : string) :
  elem <> "" -> goodAtom (fixedBy Filenamify elem) = true.
Proof.
  intros Hne. unfold fixedBy, Filenamify.
  destruct elem as [|c s]; [congruence|].
  destruct (allUnsafe (String c s)) eqn:E; [reflexivity|].
  cbn [fst]. apply goodAtom_spec. split.
  - destruct (stripLeading_some_safe _ E) as (d & t & -> & Hd).
    rewrite replaceRuns_safe_cons by assumption. discriminate.
  - now apply replaceRuns_safe.
Qed.

Lemma Filenamify_noSep (elem : string) :
  noSep (fixedBy Filenamify elem) = true.
Proof.
  destruct elem as [|c s]; [reflexivity|].
  apply goodAtom_noSep, Filenamify_good. discriminate.
Qed.

(** ** The loops of [Join] *)

Section Loops.

Variable san : string -> Options -> string * option error.

Lemma firstError_app (a b : list string) :
  firstError san (a ++ b)
  = match firstError san a with
    | Some err => Some err
    | None => firstError san b
    end.
Proof.
  induction a as [|elem a IH]; [reflexivity|]. simpl.
  now destruct (snd (san elem opts)).
Qed.

(** The loops in closed form: the first rejected element ends them with its
    error; without one, every element is sanitized and appended. *)
Lemma namifyElems_closed (splitted namified : list string) :
  namifyElems san splitted namified
  = match firstError san (filter nonEmpty splitted) with
    | Some err => inr err
    | None =>
        inl (namified ++ map (fixedBy san) (filter nonEmpty splitted))%list
    end.
Proof.
  revert namified.
  induction splitted as [|elem rest IH]; intros namified; simpl.
  - now rewrite app_nil_r.
  - unfold nonEmpty at 1 3 4. destruct (elem =? ""); simpl; [apply IH|].
    unfold fixedBy at 1.
    destruct (san elem opts) as [fixed [err|]]; simpl; [reflexivity|].
    rewrite IH. destruct (firstError san _); [reflexivity|].
    now rewrite <- app_assoc.
Qed.

Lemma namifyParts_closed (parts namified : list string) :
  namifyParts san parts namified
  = match firstError san (atomsOf parts) with
    | Some err => inr err
    | None => inl (namified ++ map (fixedBy san) (atomsOf parts))%list
    end.
Proof.
  revert namified.
  induction parts as [|part rest IH]; intros namified; simpl.
  - now rewrite app_nil_r.
  - rewrite firstError_app. unfold atomsOfPart.
    destruct (part =? ""); simpl; [apply IH|].
    rewrite namifyElems_closed.
    destruct (firstError san (filter nonEmpty _)); [reflexivity|].
    rewrite IH. destruct (firstError san (atomsOf rest)); [reflexivity|].
    now rewrite <- app_assoc, map_app.
Qed.

Lemma JoinWith_closed (first : string) (rest : list string) :
  JoinWith san (first :: rest)
  = match firstError san (atomsOf (first :: rest)) with
    | Some err => Return "" (Some err)
    | None =>
        Return (prefixed (filepath.IsAbs first)
                  (filepath.Join
                     (map (fixedBy san) (atomsOf (first :: rest)))))
               None
    end.
Proof.
  unfold JoinWith. rewrite namifyParts_closed.
  destruct (firstError san (atomsOf (first :: rest))); [reflexivity|].
  cbn [app]. unfold prefixed. now destruct (filepath.IsAbs first).
Qed.

(** The flag of the first argument decides, for every sanitizer that emits
    no separator. *)
Lemma JoinWith_abs (first : string) (rest : list string) (p : string) :
  (forall elem, noSep (fixedBy san elem) = true) ->
  JoinWith san (first :: rest) = Return p None ->
  filepath.IsAbs p = filepath.IsAbs first.
Proof.
  intros Hsan. rewrite JoinWith_closed.
  destruct (firstError san _); [discriminate|].
  intros H. injection H as <-. unfold prefixed.
  destruct (filepath.IsAbs first); [reflexivity|]. cbn [append].
  apply filepath_Join_not_abs, Forall_map, Forall_forall.
  intros elem _. apply Hsan.
Qed.

Lemma firstError_none (elems : list string) :
  (forall s, snd (san s opts) = None) -> firstError san elems = None.
Proof.
  intros Hsan. induction elems as [|elem rest IH]; [reflexivity|].
  simpl. now rewrite Hsan.
Qed.

(** A sanitizer that rejects nothing leaves [Join] no error to return. *)
Lemma JoinWith_total (first : string) (rest : list string) :
  (forall s, snd (san s opts) = None) ->
  JoinWith san (first :: rest)
  = Return (prefixed (filepath.IsAbs first)
              (filepath.Join (map (fixedBy san) (atomsOf (first :: rest)))))
           None.
Proof.
  intros Hsan. now rewrite JoinWith_closed, firstError_none.
Qed.

End Loops.

Lemma atomsOfPart_nonEmpty (part : string) :
  Forall (fun e => e <> "") (atomsOfPart part).
Proof.
  unfold atomsOfPart. destruct (part =? ""); [constructor|].
  apply Forall_forall. intros e He. apply filter_In in He as [_ He].
  now apply nonEmpty_true.
Qed.

Lemma atomsOf_nonEmpty (parts : list string) :
  Forall (fun e => e <> "") (atomsOf parts).
Proof.
  induction parts as [|part rest IH]; simpl; [constructor|].
  apply Forall_app. split; [apply atomsOfPart_nonEmpty | exact IH].
Qed.

Lemma namified_good (parts : list string) :
  Forall (fun e => goodAtom e = true)
         (map (fixedBy Filenamify) (atomsOf parts)).
Proof.
  apply Forall_map. eapply Forall_impl; [|apply atomsOf_nonEmpty].
  intros e He. now apply Filenamify_good.
Qed.

(** [Join] in closed form: the flag of the first argument, and the cleaned
    join of the sanitized elements of all arguments. *)
Lemma Join_closed (first : string) (rest : list string) :
  Join (first :: rest)
  = Return ((if filepath.IsAbs first then "/" else "")
            ++ filepath.Join
                 (map (fixedBy Filenamify) (atomsOf (first :: rest))))
           None.
Proof.
  unfold Join. rewrite JoinWith_total; [reflexivity|].
  intros s. apply Filenamify_total.
Qed.

(** ** Single elements *)

Lemma Clean_atom (atom : string) :
  atom <> "" -> noSep atom = true -> filepath.Clean atom = atom.
Proof.
  intros Hne Hns. unfold filepath.Clean.
  destruct (atom =? "") eqn:E0; [apply String.eqb_eq in E0; congruence|].
  rewrite noSep_not_abs, Split_noSep by assumption.
  unfold filepath.cleanElems. cbn [fold_left]. unfold filepath.cleanElem.
  rewrite E0.
  destruct (atom =? ".") eqn:E1; [apply String.eqb_eq in E1; now subst|].
  destruct (atom =? "..") eqn:E2; [apply String.eqb_eq in E2; now subst|].
  reflexivity.
Qed.

Lemma filepath_Join_atom (atom : string) :
  goodAtom atom = true -> filepath.Join [atom] = atom.
Proof.
  intros H. rewrite filepath_Join_good by (try discriminate; now constructor).
  apply goodAtom_spec in H as H'. destruct H' as [Hne _].
  apply Clean_atom; [assumption | now apply goodAtom_noSep].
Qed.

(** [Join] of one argument that is a single element sanitizes it. *)
Lemma Join_atom (atom : string) :
  atom <> "" -> noSep atom = true ->
  Join [atom] = Return (fixedBy Filenamify atom) None.
Proof.
  intros Hne Hns. rewrite Join_closed, noSep_not_abs by assumption.
  unfold atomsOf, atomsOfPart. cbn [flat_map].
  destruct (atom =? "") eqn:E0; [apply String.eqb_eq in E0; congruence|].
  rewrite Clean_atom, Split_noSep by assumption.
  cbn [filter]. rewrite (proj2 (nonEmpty_true atom) Hne). cbn [app map].
  rewrite filepath_Join_atom by now apply Filenamify_good.
  reflexivity.
Qed.




(** ** Shape of the result *)

Lemma components_Join (isAbs : bool) (comps : list string) :
  Forall (fun e => goodAtom e = true) comps ->
  components (prefixed isAbs (strings.Join comps)) = comps.
Proof.
  intros H. destruct comps as [|e l]; [now destruct isAbs|].
  pose proof H as H'. inversion H' as [|? ? He _]; subst.
  pose proof (goodAtom_noSep _ He) as Hns.
  apply goodAtom_spec in He as [Hne _].
  pose proof (Join_nonempty e l Hne) as Hj.
  pose proof (Join_not_abs e l Hne Hns) as Ha.
  pose proof (Split_Join (e :: l)) as Hsp.
  unfold components, prefixed.
  destruct (strings.Join (e :: l)) as [|c s] eqn:E; [congruence|].
  simpl in Ha. destruct isAbs; cbn [append isSep].
  - change (Ascii.eqb "/" "/") with true. cbv iota.
    apply Hsp; [discriminate | now apply Forall_good_noSep].
  - unfold isSep. rewrite Ha.
    apply Hsp; [discriminate | now apply Forall_good_noSep].
Qed.

Lemma prefixed_tidy (isAbs : bool) (comps : list string) :
  Forall (fun e => goodAtom e = true) comps ->
  let p := prefixed isAbs (strings.Join comps) in
  doubledSep p = false /\ (trailingSep p = false \/ p = "/")
  /\ rawUnsafe p = false.
Proof.
  intros H p. subst p. destruct comps as [|e l].
  - destruct isAbs; cbn; auto.
  - pose proof (tidy_Join _ H) as Ht.
    inversion H as [|? ? He _]; subst.
    pose proof (goodAtom_noSep _ He) as Hns.
    apply goodAtom_spec in He as [Hne _].
    destruct isAbs; unfold prefixed; cbn [append].
    + destruct (tidy_sep_cons (strings.Join (e :: l))) as (A & B & C);
        auto using Join_nonempty, Join_not_abs.
    + destruct Ht as (A & B & C). auto.
Qed.

Lemma prefixed_abs (isAbs : bool) (comps : list string) :
  Forall (fun e => goodAtom e = true) comps ->
  filepath.IsAbs (prefixed isAbs (strings.Join comps)) = isAbs.
Proof.
  intros H. destruct isAbs; [reflexivity|]. unfold prefixed. cbn [append].
  destruct comps as [|e l]; [reflexivity|].
  inversion H as [|? ? He _]; subst.
  pose proof (goodAtom_noSep _ He) as Hns.
  apply goodAtom_spec in He as [Hne _]. now apply Join_not_abs.
Qed.

(** Every successful call returns a prefixed join of good atoms. *)
Lemma Join_shape (parts : list string) (p : string) :
  Join parts = Return p None ->
  exists first rest comps,
    parts = first :: rest
    /\ Forall (fun e => goodAtom e = true) comps
    /\ p = prefixed (filepath.IsAbs first) (strings.Join comps).
Proof.
  destruct parts as [|first rest]; [discriminate|].
  rewrite Join_closed. intros H. injection H as <-.
  destruct (filepath_Join_shape _ (namified_good (first :: rest)))
    as (comps & Hg & E & _).
  exists first, rest, comps. repeat split; [assumption|].
  unfold prefixed. f_equal. exact E.
Qed.

(** Empty arguments behind the first one leave the result as it is. *)
Lemma Join_skips_empty (first : string) (before after : list string) :
  Join (first :: before ++ "" :: after) = Join (first :: before ++ after).
Proof.
  rewrite !Join_closed. unfold atomsOf. cbn [flat_map].
  rewrite !flat_map_app. reflexivity.
Qed.

(** ** The claims *)





(** C2. An atom made of unsafe characters only is sanitized to the single
    replacement character [_], not to the empty string; [Join] of such a
    slash-free atom is [_]; [Join("<")] is [_] and [Join("<", ">", "/</")] is
    [_/_/_]. *)
Theorem C2_all_unsafe_atom_becomes_replacement (atom : string) :
  atom <> "" -> allUnsafe atom = true ->
  Filenamify atom opts = ("_", None)
  /\ (noSep atom = true -> Join [atom] = Return "_" None)
  /\ Join ["<"] = Return "_" None
  /\ Join ["<"; ">"; "/</"] = Return "_/_/_" None.
Proof.
  intros Hne Hu.
  assert (E : Filenamify atom opts = ("_", None)).
  { unfold Filenamify. destruct atom; [congruence|]. now rewrite Hu. }
  split; [exact E|]. split; [|now split].
  intros Hns. rewrite Join_atom by assumption.
  unfold fixedBy. now rewrite E.
Qed.

Lemma C2_witness :
  Filenamify "<|>" opts = ("_", None) /\ Join ["<|>"] = Return "_" None.
Proof.
  destruct (C2_all_unsafe_atom_becomes_replacement "<|>") as (A & B & _).
  - discriminate.
  - reflexivity.
  - split; [exact A | apply B; reflexivity].
Defined.

(** C3. Whenever [Join] succeeds, the returned path has no empty component,
    no doubled separator, no trailing separator unless it is the root [/],
    and no raw unsafe character: every component is non-empty and made of
    safe characters, the replacement [_] being one of them. *)
Theorem C3_result_is_well_formed (parts : list string) (p : string) :
  Join parts = Return p None ->
  Forall (fun e => e <> "") (components p)
  /\ doubledSep p = false
  /\ (trailingSep p = false \/ p = "/")
  /\ rawUnsafe p = false
  /\ Forall (fun e => allSafe e = true) (components p)
  /\ unsafe "_" = false.
Proof.
  intros H. apply Join_shape in H as (first & rest & comps & -> & Hg & ->).
  rewrite components_Join by assumption.
  destruct (prefixed_tidy (filepath.IsAbs first) comps Hg) as (A & B & C).
  repeat split; try assumption.
  - eapply Forall_impl; [|exact Hg]. intros e He.
    now apply goodAtom_spec in He.
  - eapply Forall_impl; [|exact Hg]. intros e He.
    now apply goodAtom_spec in He.
Qed.

Lemma C3_witness :
  components "/a_b/c/_" = ["a_b"; "c"; "_"]
  /\ doubledSep "/a_b/c/_" = false
  /\ rawUnsafe "/a_b/c/_" = false.
Proof.
  destruct (C3_result_is_well_formed ["//a<b/"; "/c//"; "<>"] "/a_b/c/_")
    as (_ & A & _ & B & _).
  - reflexivity.
  - repeat split; assumption.
Defined.

(** C4. With no argument, [Join] does not return an empty string and a nil
    error: line 20 indexes [parts[0]] without a guard and the call panics,
    whatever the sanitizer. *)
Theorem C4_no_argument_panics :
  Join [] = Panic
  /\ forall san, JoinWith san [] = Panic.
Proof. split; reflexivity. Qed.

(** C5. For every non-empty argument list, [Join] succeeds and its result
    begins with a separator exactly when the first argument, as given, does;
    so it is on every success of [Join] with a sanitizer that emits no
    separator.  Later arguments have no part in it: [Join("a", "/<b")] is
    [a/b]. *)
Theorem C5_absolute_iff_first_argument_absolute
  (first : string) (rest : list string) :
  (exists p, Join (first :: rest) = Return p None
             /\ filepath.IsAbs p = filepath.IsAbs first)
  /\ (forall san p,
        (forall elem, noSep (fixedBy san elem) = true) ->
        JoinWith san (first :: rest) = Return p None ->
        filepath.IsAbs p = filepath.IsAbs first)
  /\ Join ["a"; "/<b"] = Return "a/b" None.
Proof.
  split; [|split; [|reflexivity]].
  - destruct (Join (first :: rest)) as [p [err|]|] eqn:E;
      try (rewrite Join_closed in E; discriminate).
    exists p. split; [reflexivity|].
    eapply JoinWith_abs; [apply Filenamify_noSep | exact E].
  - intros san p Hsan H. eapply JoinWith_abs; eassumption.
Qed.

Lemma C5_witness :
  filepath.IsAbs "/a_b/c" = filepath.IsAbs "//a<b".
Proof.
  destruct (C5_absolute_iff_first_argument_absolute "//a<b" [""; "/c"])
    as (_ & A & _).
  apply (A Filenamify "/a_b/c").
  - exact Filenamify_noSep.
  - reflexivity.
Defined.

(** C6. The first non-empty argument being absolute does not make the result
    absolute when an empty argument stands before it: [Join("", "/a")] is the
    relative path [a]. *)
Theorem C6_empty_first_argument_makes_result_relative :
  exists p, Join [""; "/a"] = Return p None
            /\ filepath.IsAbs p = false
            /\ filepath.IsAbs "/a" = true.
Proof. exists "a". repeat split. Qed.

(** C7. Removing the empty first argument of [Join("", "/a")] changes the
    result from [a] to [/a]; behind the first argument empty arguments are
    skipped, as in [Join("aA", "", "b")]. *)
Theorem C7_empty_first_argument_changes_result :
  Join [""; "/a"] = Return "a" None
  /\ Join ["/a"] = Return "/a" None
  /\ Join ["aA"; ""; "b"] = Return "aA/b" None
  /\ Join ["aA"; "b"] = Return "aA/b" None.
Proof. repeat split. Qed.

(** C8. Whatever the sanitizer: when [Join] returns a non-nil error, the
    returned path is the empty string and the error is the one of the first
    element the sanitizer rejects; and when the sanitizer rejects an element
    of a non-empty argument list, [Join] returns the error of the first such
    element and the empty path. *)
Theorem C8_error_is_propagated_without_path
  (san : string -> Options -> string * option error)
  (parts : list string) (err : error) :
  (forall p, JoinWith san parts = Return p (Some err) ->
             p = "" /\ firstError san (atomsOf parts) = Some err)
  /\ (parts <> [] -> firstError san (atomsOf parts) = Some err ->
      JoinWith san parts = Return "" (Some err)).
Proof.
  destruct parts as [|first rest].
  - split; [discriminate | congruence].
  - rewrite JoinWith_closed.
    destruct (firstError san (atomsOf (first :: rest))) as [e|]; split.
    + intros p H. injection H as <- <-. now split.
    + intros _ H. now injection H as ->.
    + discriminate.
    + discriminate.
Qed.

Lemma C8_witness :
  (forall p, JoinWith rejecting ["a"; "b"]
             = Return p (Some "filenamify: cannot process element") ->
             p = "")
  /\ JoinWith rejecting ["a"; "b"]
     = Return "" (Some "filenamify: cannot process element").
Proof.
  destruct (C8_error_is_propagated_without_path rejecting ["a"; "b"]
              "filenamify: cannot process element") as [A B].
  split.
  - intros p H. now apply A in H.
  - apply B; [discriminate | reflexivity].
Defined.

(** C9. [Join] is not idempotent: [Join("/<..")] returns [/..], which
    [filepath.Clean] would turn into [/]; and [Join] of [/..], for every
    sanitizer, returns [/]. *)
Theorem C9_unclean_result_is_not_kept :
  Join ["/<.."] = Return "/.." None
  /\ filepath.Clean "/.." = "/"
  /\ (forall san, JoinWith san ["/.."] = Return "/" None)
  /\ Join ["/.."] <> Return "/.." None.
Proof. repeat split. discriminate. Qed.

(** ** Further properties of [Join], for every sanitizer *)

Lemma cleanElem_empty (rooted : bool) (out : list string) :
  filepath.cleanElem rooted out "" = out.
Proof. reflexivity. Qed.

Lemma Split_onlySeps (s : string) :
  onlySeps s = true -> Forall (fun e => e = "") (strings.Split s).
Proof.
  induction s as [|c s IH]; simpl; [repeat constructor|].
  unfold isSep. destruct (Ascii.eqb c "/"); simpl; [|discriminate].
  intros H. constructor; auto.
Qed.

Lemma fold_cleanElem_empties (rooted : bool) (l out : list string) :
  Forall (fun e => e = "") l ->
  fold_left (filepath.cleanElem rooted) l out = out.
Proof.
  intros H. revert out. induction H as [|e l -> _ IH]; intros out;
    [reflexivity|]. simpl. apply IH.
Qed.

Lemma atomsOfPart_onlySeps (part : string) :
  onlySeps part = true -> atomsOfPart part = []%list.
Proof.
  intros H. unfold atomsOfPart. destruct part as [|c s]; [reflexivity|].
  assert (Hc : filepath.Clean (String c s) = "/").
  { unfold filepath.Clean. simpl in H. apply andb_true_iff in H as [Hc Hs].
    unfold isSep in Hc. cbn [String.eqb filepath.IsAbs strings.HasPrefixSep].
    rewrite Hc. cbv zeta iota. unfold filepath.cleanElems.
    rewrite fold_cleanElem_empties; [reflexivity|].
    apply Split_onlySeps. simpl. unfold isSep. now rewrite Hc, Hs. }
  rewrite Hc. reflexivity.
Qed.

(** X1. Behind the first argument, an argument that is empty or made of
    separators only does not change what [Join] returns. *)
Theorem X1_separator_only_argument_ignored
  (san : string -> Options -> string * option error)
  (first part : string) (before after : list string) :
  onlySeps part = true ->
  JoinWith san (first :: before ++ part :: after)
  = JoinWith san (first :: before ++ after).
Proof.
  intros H. rewrite !JoinWith_closed. unfold atomsOf. cbn [flat_map].
  rewrite !flat_map_app. cbn [flat_map].
  now rewrite (atomsOfPart_onlySeps part H).
Qed.

Lemma X1_witness :
  JoinWith Filenamify ["a"; "b<c"; "///"; "d"]
  = JoinWith Filenamify ["a"; "b<c"; "d"].
Proof.
  apply (X1_separator_only_argument_ignored Filenamify "a" "///" ["b<c"] ["d"]).
  reflexivity.
Defined.

Lemma isElem_spec (e : string) :
  isElem e = true <-> e <> "" /\ noSep e = true.
Proof. unfold isElem. rewrite andb_true_iff, nonEmpty_true. reflexivity. Qed.

Lemma atomsOf_isElem (parts : list string) :
  Forall (fun e => isElem e = true) (atomsOf parts).
Proof.
  induction parts as [|part rest IH]; simpl; [constructor|].
  apply Forall_app. split; [|exact IH].
  unfold atomsOfPart. destruct (part =? ""); [constructor|].
  pose proof (Split_elems_noSep (filepath.Clean part)) as H.
  induction H as [|e l He _ IHl]; simpl; [constructor|].
  destruct (nonEmpty e) eqn:E; [|exact IHl].
  constructor; [|exact IHl]. unfold isElem. now rewrite E, He.
Qed.

(** X2. [Join] consults the sanitizer on non-empty, separator-free elements
    only: two sanitizers that agree on these give the same outcome. *)
Theorem X2_sanitizer_sees_elements_only
  (san1 san2 : string -> Options -> string * option error)
  (parts : list string) :
  (forall e, isElem e = true -> san1 e opts = san2 e opts) ->
  JoinWith san1 parts = JoinWith san2 parts.
Proof.
  intros H. destruct parts as [|first rest]; [reflexivity|].
  rewrite !JoinWith_closed.
  pose proof (atomsOf_isElem (first :: rest)) as Ha.
  assert (E : firstError san1 (atomsOf (first :: rest))
              = firstError san2 (atomsOf (first :: rest))
              /\ map (fixedBy san1) (atomsOf (first :: rest))
                 = map (fixedBy san2) (atomsOf (first :: rest))).
  { induction Ha as [|e l He _ [IH1 IH2]]; [now split|].
    cbn [firstError map]. unfold fixedBy at 1 3.
    rewrite (H e He), IH1, IH2. now split. }
  destruct E as [-> ->]. reflexivity.
Qed.

Lemma X2_witness :
  JoinWith Filenamify ["/a<b//"; ""; "c/"]
  = JoinWith (fun e o => if isElem e then Filenamify e o else rejecting e o)
             ["/a<b//"; ""; "c/"].
Proof.
  apply (X2_sanitizer_sees_elements_only Filenamify
           (fun e o => if isElem e then Filenamify e o else rejecting e o)).
  intros e He. rewrite He. reflexivity.
Defined.

(** ** The earlier variant *)

Lemma fixParts_namifyParts
  (san : string -> Options -> string * option error)
  (parts fixeds : list string) :
  tests.fixParts san parts fixeds
  = namifyParts san (map dotForEmpty parts) fixeds.
Proof.
  revert fixeds. induction parts as [|part rest IH]; intros fixeds;
    [reflexivity|].
  cbn [map tests.fixParts namifyParts].
  assert (D : (dotForEmpty part =? "") = false
              /\ filepath.Clean (dotForEmpty part) = filepath.Clean part).
  { unfold dotForEmpty. destruct (part =? "") eqn:E; [|now split].
    apply String.eqb_eq in E. now subst part. }
  destruct D as [-> ->].
  destruct (namifyElems san _ fixeds); [apply IH | reflexivity].
Qed.

Lemma map_dotForEmpty_id (parts : list string) :
  Forall (fun part => part <> "") parts -> map dotForEmpty parts = parts.
Proof.
  induction 1 as [|part rest Hp _ IH]; [reflexivity|].
  cbn [map]. rewrite IH. unfold dotForEmpty.
  destruct (part =? "") eqn:E; [|reflexivity].
  apply String.eqb_eq in E. congruence.
Qed.

(** X3. [FilenamifyJoin] is [Join] with every empty argument replaced by
    [.]; the two functions agree on arguments none of which is empty. *)
Theorem X3_FilenamifyJoin_is_Join_with_dots
  (san : string -> Options -> string * option error)
  (parts : list string) :
  tests.FilenamifyJoinWith san parts = JoinWith san (map dotForEmpty parts)
  /\ (Forall (fun part => part <> "") parts ->
      tests.FilenamifyJoinWith san parts = JoinWith san parts).
Proof.
  assert (E : tests.FilenamifyJoinWith san parts
              = JoinWith san (map dotForEmpty parts)).
  { destruct parts as [|first rest]; [reflexivity|].
    unfold tests.FilenamifyJoinWith, JoinWith. cbn [map].
    rewrite fixParts_namifyParts. cbn [map].
    assert (Ha : filepath.IsAbs (dotForEmpty first) = filepath.IsAbs first).
    { unfold dotForEmpty. destruct (first =? "") eqn:E0; [|reflexivity].
      apply String.eqb_eq in E0. now subst. }
    now rewrite Ha. }
  split; [exact E|]. intros H. now rewrite E, map_dotForEmpty_id.
Qed.

Lemma X3_witness :
  tests.FilenamifyJoinWith Filenamify ["/a"; "b<c/"; "../d"]
  = JoinWith Filenamify ["/a"; "b<c/"; "../d"].
Proof.
  apply (X3_FilenamifyJoin_is_Join_with_dots Filenamify
           ["/a"; "b<c/"; "../d"]).
  repeat constructor; discriminate.
Defined.

(** ** The shape of the result, for every sanitizer *)

Lemma seps_safe_cons (c : ascii) (t : string) :
  isSep c = false ->
  doubledSep t = false /\ trailingSep t = false ->
  doubledSep (String c t) = false /\ trailingSep (String c t) = false.
Proof.
  intros Hc [Hd Ht]. simpl. rewrite Hc. destruct t; auto.
Qed.

Lemma seps_sep_cons (t : string) :
  t <> "" -> filepath.IsAbs t = false ->
  doubledSep t = false /\ trailingSep t = false ->
  doubledSep (String "/" t) = false /\ trailingSep (String "/" t) = false.
Proof.
  intros Hne Ha [Hd Ht]. destruct t as [|d t]; [congruence|].
  simpl in Ha. cbn [doubledSep trailingSep]. unfold isSep at 2.
  rewrite Ha. auto.
Qed.

Lemma seps_elem (e : string) :
  noSep e = true -> doubledSep e = false /\ trailingSep e = false.
Proof.
  induction e as [|c e IH]; [now split|].
  simpl. rewrite andb_true_iff, negb_true_iff. intros [Hc He].
  apply seps_safe_cons; auto.
Qed.

Lemma seps_app_sep (e t : string) :
  noSep e = true -> t <> "" -> filepath.IsAbs t = false ->
  doubledSep t = false /\ trailingSep t = false ->
  doubledSep (e ++ String "/" t) = false
  /\ trailingSep (e ++ String "/" t) = false.
Proof.
  intros He Hne Ha Ht. induction e as [|c e IH]; simpl.
  - now apply seps_sep_cons.
  - simpl in He. rewrite andb_true_iff, negb_true_iff in He.
    destruct He as [Hc He]. apply seps_safe_cons; auto.
Qed.

Lemma seps_Join (l : list string) :
  Forall (fun e => isElem e = true) l ->
  doubledSep (strings.Join l) = false /\ trailingSep (strings.Join l) = false.
Proof.
  induction l as [|e l IH]; intros H; [now split|].
  inversion H as [|? ? He Hl]; subst. apply isElem_spec in He as [Hne Hs].
  destruct l as [|e' l]; [now apply seps_elem|].
  rewrite Join_cons by discriminate.
  inversion Hl as [|? ? He' _]; subst. apply isElem_spec in He' as [Hne' Hs'].
  apply seps_app_sep; auto using Join_nonempty, Join_not_abs.
Qed.

Lemma components_elems (isAbs : bool) (comps : list string) :
  Forall (fun e => isElem e = true) comps ->
  components (prefixed isAbs (strings.Join comps)) = comps.
Proof.
  intros H. destruct comps as [|e l]; [now destruct isAbs|].
  pose proof H as H'. inversion H' as [|? ? He _]; subst.
  apply isElem_spec in He as [Hne Hns].
  pose proof (Join_nonempty e l Hne) as Hj.
  pose proof (Join_not_abs e l Hne Hns) as Ha.
  assert (Hsp : strings.Split (strings.Join (e :: l)) = (e :: l)%list).
  { apply Split_Join; [discriminate|]. eapply Forall_impl; [|exact H].
    intros x Hx. now apply isElem_spec in Hx. }
  unfold components, prefixed.
  destruct (strings.Join (e :: l)) as [|c s] eqn:E; [congruence|].
  simpl in Ha. destruct isAbs; cbn [append isSep].
  - change (Ascii.eqb "/" "/") with true. cbv iota. exact Hsp.
  - unfold isSep. rewrite Ha. exact Hsp.
Qed.

(** [Clean] returns elements joined by single separators, behind the
    separator of a rooted path; it returns [.] for no element of an
    unrooted one. *)
Lemma Clean_shape (path : string) :
  exists comps,
    Forall (fun e => isElem e = true) comps
    /\ filepath.Clean path
       = prefixed (filepath.IsAbs path) (strings.Join comps).
Proof.
  unfold filepath.Clean. destruct (path =? "") eqn:E.
  - apply String.eqb_eq in E. subst. exists ["."]%list.
    split; [now repeat constructor | reflexivity].
  - pose proof (Split_elems_noSep path) as Hs. cbv zeta.
    destruct (filepath.IsAbs path).
    + exists (filepath.cleanElems true (strings.Split path)).
      split; [now apply cleanElems_isElem | reflexivity].
    + pose proof (cleanElems_isElem false _ Hs) as Hc.
      destruct (filepath.cleanElems false (strings.Split path)) as [|o out].
      * exists ["."]%list. split; [now repeat constructor | reflexivity].
      * exists (o :: out)%list. split; [assumption | reflexivity].
Qed.

Lemma filepath_Join_elems (l : list string) :
  Forall (fun e => noSep e = true) l ->
  exists comps,
    Forall (fun e => isElem e = true) comps
    /\ filepath.Join l = strings.Join comps.
Proof.
  induction 1 as [|e l He Hl IH]; [now exists []%list|].
  simpl. destruct (e =? "") eqn:E; [exact IH|].
  destruct (Clean_shape (strings.Join (e :: l))) as (comps & Hc & Ec).
  exists comps. split; [assumption|]. rewrite Ec, Join_not_abs; auto.
  intros ->. discriminate.
Qed.

(** X4. Whatever the sanitizer, provided it emits no separator: a path that
    [Join] returns has no doubled separator, no trailing separator unless
    it is the root [/], and no empty component. *)
Theorem X4_result_has_single_separators
  (san : string -> Options -> string * option error)
  (parts : list string) (p : string) :
  (forall elem, noSep (fixedBy san elem) = true) ->
  JoinWith san parts = Return p None ->
  doubledSep p = false
  /\ (trailingSep p = false \/ p = "/")
  /\ Forall (fun e => e <> "") (components p).
Proof.
  intros Hsan H. destruct parts as [|first rest]; [discriminate|].
  rewrite JoinWith_closed in H.
  destruct (firstError san _); [discriminate|].
  destruct (filepath_Join_elems
              (map (fixedBy san) (atomsOf (first :: rest))))
    as (comps & Hc & E).
  { apply Forall_map, Forall_forall. intros e _. apply Hsan. }
  rewrite E in H. injection H as <-.
  rewrite components_elems by assumption.
  assert (Hne : Forall (fun e => e <> "") comps).
  { eapply Forall_impl; [|exact Hc]. intros e He.
    now apply isElem_spec in He. }
  destruct comps as [|e l].
  - destruct (filepath.IsAbs first); cbn; auto.
  - pose proof (seps_Join _ Hc) as Hs.
    inversion Hc as [|? ? He _]; subst. apply isElem_spec in He as [He Hns].
    destruct (filepath.IsAbs first); unfold prefixed; cbn [append].
    + destruct (seps_sep_cons (strings.Join (e :: l))) as [A B];
        auto using Join_nonempty, Join_not_abs.
    + destruct Hs as [A B]. auto.
Qed.

Lemma X4_witness :
  doubledSep "/x/x" = false
  /\ Forall (fun e => e <> "") (components "/x/x").
Proof.
  destruct (X4_result_has_single_separators
              (fun _ _ => ("x", None)) ["//a//"; ""; "b/"] "/x/x")
    as (A & _ & B).
  - intros elem. reflexivity.
  - reflexivity.
  - split; assumption.
Defined.

(** ** [Join] and [filepath.Join] *)

Lemma Split_not_nil (s : string) : strings.Split s <> []%list.
Proof.
  induction s as [|c s IH]; simpl; [discriminate|].
  destruct (Ascii.eqb c "/"); [discriminate|].
  destruct (strings.Split s); [contradiction | discriminate].
Qed.

Lemma Split_app (a r : string) :
  strings.Split (a ++ String "/" r)
  = (strings.Split a ++ strings.Split r)%list.
Proof.
  induction a as [|c a IH]; [reflexivity|].
  cbn [append strings.Split]. rewrite IH.
  destruct (Ascii.eqb c "/"); [reflexivity|].
  pose proof (Split_not_nil a) as Hn.
  destruct (strings.Split a); [contradiction | reflexivity].
Qed.

Lemma Split_Join_flat (l : list string) :
  l <> []%list -> strings.Split (strings.Join l) = flat_map strings.Split l.
Proof.
  induction l as [|e l IH]; [congruence|]. intros _.
  destruct l as [|e' l]; [simpl; now rewrite app_nil_r|].
  rewrite Join_cons by discriminate. rewrite Split_app.
  rewrite IH by discriminate. reflexivity.
Qed.

Lemma Join_abs_head (e : string) (l : list string) :
  e <> "" -> filepath.IsAbs (strings.Join (e :: l)) = filepath.IsAbs e.
Proof.
  destruct e as [|c e]; [congruence|]. intros _. now rewrite Join_head.
Qed.

Lemma dotdots_nil (k : nat) : dotdots k []%list = repeat ".." k.
Proof.
  induction k as [|k IH]; [reflexivity|].
  unfold dotdots in *. rewrite Nat.iter_succ, IH.
  destruct k; reflexivity.
Qed.

Lemma fold_dotdots (k : nat) (out : list string) :
  fold_left (filepath.cleanElem false) (repeat ".." k) out = dotdots k out.
Proof.
  revert out. induction k as [|k IH]; intros out; [reflexivity|].
  cbn [repeat fold_left]. rewrite IH. unfold dotdots.
  now rewrite Nat.iter_succ_r.
Qed.

Lemma cleanElem_kept (rooted : bool) (out : list string) (e : string) :
  kept e = true -> filepath.cleanElem rooted out e = (e :: out)%list.
Proof.
  unfold kept, filepath.cleanElem.
  rewrite !andb_true_iff, !negb_true_iff. now intros [[-> ->] ->].
Qed.

Lemma fold_kept (P out : list string) :
  forallb kept P = true ->
  fold_left (filepath.cleanElem false) (rev P) out = (P ++ out)%list.
Proof.
  induction P as [|e P IH]; [reflexivity|].
  cbn [forallb]. rewrite andb_true_iff. intros [He HP].
  cbn [rev]. rewrite fold_left_app. cbn [fold_left].
  rewrite IH by assumption. now apply cleanElem_kept.
Qed.

(** What the loop of [Clean] does to any output it starts from: some
    elements [..] are read first, then kept elements are written. *)
Lemma fold_cleanElem_decomposed (l : list string) :
  exists P k,
    forallb kept P = true
    /\ forall out, fold_left (filepath.cleanElem false) l out
                   = (P ++ dotdots k out)%list.
Proof.
  induction l as [|e l (P & k & HP & IH)] using rev_ind.
  - exists []%list, 0. split; [reflexivity | now intros out].
  - destruct (kept e) eqn:Ek.
    + exists (e :: P)%list, k. split; [cbn; now rewrite Ek|].
      intros out. rewrite fold_left_app. cbn [fold_left].
      rewrite IH. now apply cleanElem_kept.
    + destruct (e =? "..") eqn:E2.
      * apply String.eqb_eq in E2. subst e. destruct P as [|p P].
        -- exists []%list, (S k). split; [reflexivity|].
           intros out. rewrite fold_left_app. cbn [fold_left].
           rewrite IH. cbn [app]. unfold dotdots.
           now rewrite Nat.iter_succ.
        -- exists P, k. cbn [forallb] in HP.
           apply andb_true_iff in HP as [Hp HP]. split; [assumption|].
           intros out. rewrite fold_left_app. cbn [fold_left].
           rewrite IH. unfold kept in Hp.
           rewrite !andb_true_iff, !negb_true_iff in Hp.
           destruct Hp as [_ Hp]. cbn [app]. unfold filepath.cleanElem.
           cbn [String.eqb Ascii.eqb Bool.eqb]. now rewrite Hp.
      * exists P, k. split; [assumption|].
        intros out. rewrite fold_left_app. cbn [fold_left].
        rewrite IH. unfold kept in Ek. unfold filepath.cleanElem.
        destruct (e =? ""); [reflexivity|].
        destruct (e =? "."); [reflexivity|]. now rewrite E2 in *.
Qed.

(** Reading a path equals reading its cleaned elements, from any output. *)
Lemma fold_cleanElem_replay (l out : list string) :
  fold_left (filepath.cleanElem false) l out
  = fold_left (filepath.cleanElem false) (filepath.cleanElems false l) out.
Proof.
  destruct (fold_cleanElem_decomposed l) as (P & k & HP & E).
  unfold filepath.cleanElems. rewrite (E []%list), (E out), dotdots_nil.
  rewrite rev_app_distr, rev_repeat, fold_left_app, fold_dotdots.
  now rewrite fold_kept.
Qed.

Lemma Clean_unrooted (path : string) :
  path <> "" -> filepath.IsAbs path = false ->
  filepath.Clean path
  = match filepath.cleanElems false (strings.Split path) with
    | []%list => "."
    | out => strings.Join out
    end.
Proof.
  intros Hne Ha. unfold filepath.Clean.
  destruct (path =? "") eqn:E; [apply String.eqb_eq in E; congruence|].
  rewrite Ha. cbv zeta.
  now destruct (filepath.cleanElems false (strings.Split path)).
Qed.

Lemma filter_nonEmpty_elems (l : list string) :
  Forall (fun e => isElem e = true) l -> filter nonEmpty l = l.
Proof.
  induction 1 as [|e l He _ IH]; [reflexivity|].
  cbn [filter]. unfold isElem in He. apply andb_true_iff in He as [-> _].
  now rewrite IH.
Qed.

Lemma Forall_isElem_noSep (l : list string) :
  Forall (fun e => isElem e = true) l -> Forall (fun e => noSep e = true) l.
Proof. apply Forall_impl. intros e He. now apply isElem_spec in He. Qed.

(** The elements handed over for an unrooted argument. *)
Lemma atomsOfPart_unrooted (part : string) :
  part <> "" -> filepath.IsAbs part = false ->
  atomsOfPart part
  = match filepath.cleanElems false (strings.Split part) with
    | []%list => ["."]%list
    | out => out
    end.
Proof.
  intros Hne Ha. unfold atomsOfPart.
  destruct (part =? "") eqn:E; [apply String.eqb_eq in E; congruence|].
  rewrite Clean_unrooted by assumption.
  pose proof (cleanElems_isElem false _ (Split_elems_noSep part)) as Hc.
  destruct (filepath.cleanElems false (strings.Split part)) as [|o out];
    [reflexivity|].
  rewrite Split_Join by (try discriminate; now apply Forall_isElem_noSep).
  now apply filter_nonEmpty_elems.
Qed.

Lemma fold_atomsOfPart (part : string) (out : list string) :
  filepath.IsAbs part = false ->
  fold_left (filepath.cleanElem false) (strings.Split part) out
  = fold_left (filepath.cleanElem false) (atomsOfPart part) out.
Proof.
  intros Ha. destruct part as [|c s]; [reflexivity|].
  rewrite atomsOfPart_unrooted by (try discriminate; assumption).
  rewrite fold_cleanElem_replay.
  now destruct (filepath.cleanElems false (strings.Split (String c s))).
Qed.

Lemma fold_atomsOf (parts out : list string) :
  Forall (fun part => filepath.IsAbs part = false) parts ->
  fold_left (filepath.cleanElem false) (flat_map strings.Split parts) out
  = fold_left (filepath.cleanElem false) (atomsOf parts) out.
Proof.
  intros H. revert out. induction H as [|part rest Hp _ IH]; intros out;
    [reflexivity|].
  unfold atomsOf. cbn [flat_map]. rewrite !fold_left_app.
  rewrite fold_atomsOfPart by assumption. apply IH.
Qed.

Lemma filepath_Join_atomsOf (parts : list string) :
  Forall (fun part => filepath.IsAbs part = false) parts ->
  filepath.Join (atomsOf parts) = filepath.Join parts.
Proof.
  intros H. induction H as [|part rest Hp Hr IH]; [reflexivity|].
  destruct part as [|c s]; [exact IH|].
  pose proof (atomsOf_isElem (String c s :: rest)) as Ha.
  pose proof (fold_atomsOf (String c s :: rest) []%list
                (Forall_cons _ Hp Hr)) as Hf.
  assert (Hat : atomsOf (String c s :: rest) <> []%list).
  { unfold atomsOf. cbn [flat_map].
    rewrite atomsOfPart_unrooted by (try discriminate; assumption).
    now destruct (filepath.cleanElems false _). }
  destruct (atomsOf (String c s :: rest)) as [|a atoms] eqn:Ea;
    [congruence|].
  inversion Ha as [|? ? Hel _]; subst. apply isElem_spec in Hel as [Hne Hns].
  cbn [filepath.Join].
  destruct (a =? "") eqn:E0; [apply String.eqb_eq in E0; congruence|].
  cbn [String.eqb].
  rewrite !Clean_unrooted;
    try (apply Join_nonempty; (assumption || discriminate));
    try (rewrite Join_abs_head by (assumption || discriminate);
         (assumption || now apply noSep_not_abs)).
  rewrite Split_Join by (try discriminate; now apply Forall_isElem_noSep).
  rewrite Split_Join_flat by discriminate.
  unfold filepath.cleanElems. now rewrite Hf.
Qed.

(** X5. On arguments none of which begins with a separator, and with a
    sanitizer that returns the elements it is given unchanged, [Join]
    returns what [filepath.Join] returns for the same arguments. *)
Theorem X5_Join_is_filepath_Join_on_relative_arguments
  (san : string -> Options -> string * option error)
  (first : string) (rest : list string) :
  Forall (fun part => filepath.IsAbs part = false) (first :: rest) ->
  (forall e, In e (atomsOf (first :: rest)) -> san e opts = (e, None)) ->
  JoinWith san (first :: rest)
  = Return (filepath.Join (first :: rest)) None.
Proof.
  intros Hrel Hsan. rewrite JoinWith_closed.
  assert (E : firstError san (atomsOf (first :: rest)) = None
              /\ map (fixedBy san) (atomsOf (first :: rest))
                 = atomsOf (first :: rest)).
  { induction (atomsOf (first :: rest)) as [|e l IH]; [now split|].
    cbn [firstError map]. unfold fixedBy at 1.
    rewrite (Hsan e) by now left. cbn [fst snd].
    destruct IH as [-> ->]; [|now split].
    intros x Hx. apply Hsan. now right. }
  destruct E as [-> ->].
  inversion Hrel as [|? ? Hf _]; subst. rewrite Hf.
  now rewrite filepath_Join_atomsOf.
Qed.

Lemma X5_witness :
  JoinWith (fun e _ => (e, None)) ["a/../.."; ""; "b//c"; "../d"]
  = Return "../b/d" None.
Proof.
  apply (X5_Join_is_filepath_Join_on_relative_arguments
           (fun e _ => (e, None)) "a/../.." [""; "b//c"; "../d"]).
  - repeat constructor.
  - intros e _. reflexivity.
Defined.

(** ** Package [templ] *)

Lemma replacement_backslash (c : ascii) (new : string) :
  templ.replacement templ.backslashReplacer c = Some new ->
  new = String "\" (String c "").
Proof.
  unfold templ.backslashReplacer. cbn [templ.replacement].
  repeat match goal with
         | |- context [Ascii.eqb c ?x] =>
             let E := fresh "E" in
             destruct (Ascii.eqb c x) eqn:E;
             [apply Ascii.eqb_eq in E; subst c; intros H; now injection H as <-|]
         end.
  discriminate.
Qed.

Lemma replacement_none (c : ascii) :
  templ.replacement templ.backslashReplacer c = None ->
  Ascii.eqb c "\" = false.
Proof.
  unfold templ.backslashReplacer. cbn [templ.replacement].
  repeat match goal with
         | |- context [Ascii.eqb c ?x] =>
             destruct (Ascii.eqb c x) eqn:?; [discriminate|]
         end.
  reflexivity.
Qed.

Lemma unescape_Backslashify (s : string) :
  unescape (templ.Backslashify s) = s.
Proof.
  unfold templ.Backslashify. induction s as [|c s IH]; [reflexivity|].
  cbn [templ.Replace].
  destruct (templ.replacement templ.backslashReplacer c) as [new|] eqn:E.
  - apply replacement_backslash in E. subst new.
    cbn [append unescape]. change (Ascii.eqb "\" "\") with true. cbv iota.
    now rewrite IH.
  - apply replacement_none in E. cbn [unescape]. now rewrite E, IH.
Qed.

(** X6. [Backslashify] loses nothing: reading each backslash and the byte
    behind it as that byte gives the text back, so two texts with the same
    escaped form are equal. *)
Theorem X6_Backslashify_is_lossless :
  (forall s, unescape (templ.Backslashify s) = s)
  /\ (forall a b, templ.Backslashify a = templ.Backslashify b -> a = b).
Proof.
  split; [exact unescape_Backslashify|].
  intros a b H. rewrite <- (unescape_Backslashify a), H.
  apply unescape_Backslashify.
Qed.

Lemma X6_witness : "a-b\c" = "a-b\c".
Proof.
  apply (proj2 X6_Backslashify_is_lossless "a-b\c" "a-b\c"). reflexivity.
Defined.

Lemma hasByte_app (c : ascii) (a b : string) :
  hasByte c (a ++ b) = hasByte c a || hasByte c b.
Proof.
  induction a as [|d a IH]; [reflexivity|].
  simpl. now rewrite IH, orb_assoc.
Qed.

Lemma ReplaceAllByte_removes (s : string) (old : ascii) (new : string) :
  hasByte old new = false ->
  hasByte old (templ.ReplaceAllByte s old new) = false.
Proof.
  intros H. induction s as [|c s IH]; [reflexivity|].
  cbn [templ.ReplaceAllByte]. destruct (Ascii.eqb c old) eqn:E.
  - now rewrite hasByte_app, H, IH.
  - cbn [hasByte]. now rewrite E, IH.
Qed.

Lemma ReplaceAllByte_absent (s : string) (old : ascii) (new : string) :
  hasByte old s = false -> templ.ReplaceAllByte s old new = s.
Proof.
  induction s as [|c s IH]; [reflexivity|].
  cbn [hasByte templ.ReplaceAllByte]. rewrite orb_false_iff.
  intros [-> Hs]. now rewrite IH.
Qed.

Lemma ReplaceAllByte_length (s : string) (old new : ascii) :
  String.length (templ.ReplaceAllByte s old (String new ""))
  = String.length s.
Proof.
  induction s as [|c s IH]; [reflexivity|].
  cbn [templ.ReplaceAllByte]. destruct (Ascii.eqb c old); simpl; now rewrite IH.
Qed.

Lemma ReplaceAllByte_mapBytes (s : string) (old new : ascii) :
  templ.ReplaceAllByte s old (String new "")
  = mapBytes (fun c => if Ascii.eqb c old then new else c) s.
Proof.
  induction s as [|c s IH]; [reflexivity|].
  cbn [templ.ReplaceAllByte mapBytes]. rewrite IH.
  now destruct (Ascii.eqb c old).
Qed.

(** X7. [Dashify] writes [-] and [Underscoreify] writes [_] for every
    space and keep every other byte; their results hold no space and have
    the length of the text; applying either of them to the result of either
    of them changes nothing. *)
Theorem X7_Dashify_Underscoreify_remove_spaces (str : string) :
  hasByte " " (templ.Dashify str) = false
  /\ hasByte " " (templ.Underscoreify str) = false
  /\ String.length (templ.Dashify str) = String.length str
  /\ String.length (templ.Underscoreify str) = String.length str
  /\ templ.Dashify (templ.Dashify str) = templ.Dashify str
  /\ templ.Underscoreify (templ.Dashify str) = templ.Dashify str
  /\ templ.Dashify (templ.Underscoreify str) = templ.Underscoreify str
  /\ templ.Underscoreify (templ.Underscoreify str) = templ.Underscoreify str
  /\ templ.Dashify str
     = mapBytes (fun c => if Ascii.eqb c " " then "-"%char else c) str
  /\ templ.Underscoreify str
     = mapBytes (fun c => if Ascii.eqb c " " then "_"%char else c) str.
Proof.
  unfold templ.Dashify, templ.Underscoreify.
  assert (Hd : hasByte " " (templ.ReplaceAllByte str " " "-") = false)
    by now apply ReplaceAllByte_removes.
  assert (Hu : hasByte " " (templ.ReplaceAllByte str " " "_") = false)
    by now apply ReplaceAllByte_removes.
  repeat split;
    auto using ReplaceAllByte_length, ReplaceAllByte_absent,
               ReplaceAllByte_mapBytes.
Qed.

Lemma setByte_at (done : list ascii) (x char : ascii) (rest : list ascii) :
  templ.setByte (done ++ x :: rest) (List.length done) char
  = (done ++ char :: rest)%list.
Proof.
  induction done as [|d done IH]; [reflexivity|]. simpl. now rewrite IH.
Qed.

Lemma Makeline_loop (char : ascii) (k done m : nat) :
  fold_left (fun b i => templ.setByte b i char) (seq done k)
            (repeat char done ++ repeat Ascii.zero (k + m))%list
  = (repeat char (done + k) ++ repeat Ascii.zero m)%list.
Proof.
  revert done. induction k as [|k IH]; intros done.
  - now rewrite Nat.add_0_r.
  - cbn [seq fold_left Nat.add repeat].
    assert (E : templ.setByte
                  (repeat char done ++ Ascii.zero :: repeat Ascii.zero (k + m))
                  done char
                = (repeat char (S done) ++ repeat Ascii.zero (k + m))%list).
    { rewrite <- (repeat_length char done) at 2. rewrite setByte_at.
      change (repeat char (S done)) with (char :: repeat char done)%list.
      rewrite repeat_cons. now rewrite <- app_assoc. }
    rewrite E, IH. now rewrite Nat.add_succ_r.
Qed.

(** X8. [Makeline] returns [char] as many times as [str] has bytes. *)
Theorem X8_Makeline_repeats_char (str : string) (char : ascii) :
  templ.Makeline str char
  = string_of_list_ascii (repeat char (String.length str))
  /\ String.length (templ.Makeline str char) = String.length str.
Proof.
  assert (E : templ.Makeline str char
              = string_of_list_ascii (repeat char (String.length str))).
  { unfold templ.Makeline. cbv zeta. rewrite repeat_length.
    pose proof (Makeline_loop char (String.length str) 0 0) as H.
    cbn [repeat app Nat.add] in H. rewrite Nat.add_0_r, app_nil_r in H.
    f_equal. exact H. }
  split; [exact E|]. rewrite E.
  generalize (String.length str). intros n.
  induction n as [|n IH]; [reflexivity|].
  cbn [repeat string_of_list_ascii String.length]. now f_equal.
Qed.

Lemma blankLine_cons (c : ascii) (t : string) :
  blankLine (String c t)
  = (Ascii.eqb c templ.newline && startsWithNewline t) || blankLine t.
Proof. destruct t; [now rewrite andb_false_r | reflexivity]. Qed.

Lemma blankLine_app (a t : string) :
  blankLine a = false -> blankLine t = false ->
  startsWithNewline t = false -> blankLine (a ++ t) = false.
Proof.
  intros Ha Ht Hs. induction a as [|c a IH]; [assumption|].
  rewrite blankLine_cons in Ha. apply orb_false_iff in Ha as [Hc Ha].
  cbn [append]. rewrite blankLine_cons, (IH Ha), orb_false_r.
  destruct a as [|d a]; [cbn [append]; now rewrite Hs, andb_false_r|].
  exact Hc.
Qed.

(** What [multiNewlineReplaceAll] writes holds no empty line, and behind a
    replaced run it does not begin with a line feed. *)
Lemma multiNewlineReplaceAll_lines (repl str : string) :
  blankLine repl = false ->
  blankLine (templ.multiNewlineReplaceAll repl false str) = false
  /\ blankLine (templ.multiNewlineReplaceAll repl true str) = false
  /\ startsWithNewline (templ.multiNewlineReplaceAll repl true str) = false
  /\ (startsWithNewline str = false ->
      startsWithNewline (templ.multiNewlineReplaceAll repl false str)
      = false).
Proof.
  intros Hr. induction str as [|c s (IH1 & IH2 & IH3 & IH4)];
    [now repeat split|].
  cbn [templ.multiNewlineReplaceAll startsWithNewline].
  destruct (Ascii.eqb c templ.newline) eqn:Ec.
  - repeat split; try assumption; try discriminate.
    destruct s as [|d s']; [reflexivity|].
    destruct (Ascii.eqb d templ.newline) eqn:Ed.
    + now apply blankLine_app.
    + rewrite blankLine_cons, IH1, orb_false_r.
      rewrite IH4 by exact Ed. apply andb_false_r.
  - repeat split; intros;
      try (rewrite blankLine_cons, Ec, IH1; reflexivity);
      cbn [startsWithNewline]; exact Ec.
Qed.

Lemma replacement_newline :
  templ.replacement templ.backslashReplacer templ.newline = None.
Proof. reflexivity. Qed.

Lemma Backslashify_lines (s : string) :
  startsWithNewline (templ.Backslashify s) = startsWithNewline s
  /\ blankLine (templ.Backslashify s) = blankLine s.
Proof.
  unfold templ.Backslashify. induction s as [|c s [IH1 IH2]]; [now split|].
  cbn [templ.Replace startsWithNewline].
  destruct (templ.replacement templ.backslashReplacer c) as [new|] eqn:E.
  - assert (Hc : Ascii.eqb c templ.newline = false).
    { destruct (Ascii.eqb c templ.newline) eqn:Ec; [|reflexivity].
      apply Ascii.eqb_eq in Ec. subst c. discriminate. }
    apply replacement_backslash in E. subst new. cbn [append].
    rewrite !blankLine_cons, Hc, IH2. cbn [startsWithNewline].
    now rewrite Hc.
  - rewrite !blankLine_cons, IH1, IH2. now split.
Qed.

(** X9. Unless the text is passed through as troff, the result of
    [SimpleToTroff] and of [SimpleToMdoc] holds no empty line. *)
Theorem X9_SimpleTo_leaves_no_blank_line (str : string) :
  templ.looksLikeTroff str = false ->
  blankLine (templ.SimpleToTroff str) = false
  /\ blankLine (templ.SimpleToMdoc str) = false.
Proof.
  intros H. unfold templ.SimpleToTroff, templ.SimpleToMdoc. rewrite H.
  split; rewrite (proj2 (Backslashify_lines _));
    now apply multiNewlineReplaceAll_lines.
Qed.

Lemma X9_witness :
  blankLine
    (templ.SimpleToTroff
       ("a-b" ++ String templ.newline (String templ.newline
                   (String templ.newline "c"))))
  = false.
Proof.
  apply (X9_SimpleTo_leaves_no_blank_line
           ("a-b" ++ String templ.newline (String templ.newline
                       (String templ.newline "c")))).
  reflexivity.
Defined.

Lemma multiNewlineReplaceAll_plain (repl str : string) :
  blankLine str = false -> templ.multiNewlineReplaceAll repl false str = str.
Proof.
  induction str as [|c s IH]; [reflexivity|].
  rewrite blankLine_cons. intros H. apply orb_false_iff in H as [Hc Hs].
  cbn [templ.multiNewlineReplaceAll].
  destruct (Ascii.eqb c templ.newline) eqn:Ec; [|now rewrite IH].
  destruct s as [|d s']; [reflexivity|].
  cbn [startsWithNewline andb] in Hc. rewrite Hc. now rewrite IH.
Qed.

Lemma Backslashify_plain (s : string) :
  noEscaped s = true -> templ.Backslashify s = s.
Proof.
  unfold templ.Backslashify. induction s as [|c s IH]; [reflexivity|].
  cbn [noEscaped templ.Replace].
  destruct (templ.replacement templ.backslashReplacer c); [discriminate|].
  intros H. now rewrite IH.
Qed.

(** X10. A text without empty line and without any of the five bytes
    [Backslashify] replaces is returned unchanged by [SimpleToTroff] and by
    [SimpleToMdoc]. *)
Theorem X10_SimpleTo_keeps_plain_text (str : string) :
  blankLine str = false -> noEscaped str = true ->
  templ.SimpleToTroff str = str /\ templ.SimpleToMdoc str = str.
Proof.
  intros Hb He. unfold templ.SimpleToTroff, templ.SimpleToMdoc.
  destruct (templ.looksLikeTroff str); [now split|].
  rewrite !multiNewlineReplaceAll_plain by assumption.
  now rewrite Backslashify_plain.
Qed.

Lemma X10_witness :
  templ.SimpleToTroff ("Some test" ++ String templ.newline "one a line")
  = "Some test" ++ String templ.newline "one a line".
Proof.
  destruct (X10_SimpleTo_keeps_plain_text
              ("Some test" ++ String templ.newline "one a line"))
    as [A _]; [reflexivity | reflexivity | exact A].
Defined.

(** ** Package [cobraman] *)

Section GeneratorFacts.

Variables Time Data : Type.
Variable GetTemplate : string -> option (string * string).

Lemma validate_Section (now : Time) (opts o : cobraman.Options Time Data)
  (templateName : string) :
  cobraman.validate Time Data GetTemplate now opts templateName = Some o ->
  cobraman.Section _ _ o <> "" /\ cobraman.Date _ _ o <> None.
Proof.
  destruct opts as [sec cf date lf ch fi bu en au sep0 suf cd].
  unfold cobraman.validate. cbn.
  destruct (GetTemplate templateName) as [[sep ext]|]; [|discriminate].
  destruct (sec =? "") eqn:E; destruct date as [d|]; cbn;
    intros H; injection H as <-; cbn; split; try discriminate;
    now apply String.eqb_neq.
Qed.

Lemma validate_again (now now' : Time) (opts o : cobraman.Options Time Data)
  (templateName : string) :
  cobraman.validate Time Data GetTemplate now opts templateName = Some o ->
  cobraman.validate Time Data GetTemplate now' o templateName = Some o.
Proof.
  destruct opts as [sec cf date lf ch fi bu en au sep0 suf cd].
  unfold cobraman.validate. cbn.
  destruct (GetTemplate templateName) as [[sep ext]|]; [|discriminate].
  destruct (sec =? "") eqn:E; destruct date as [d|]; cbn;
    intros H; injection H as <-; cbn; try rewrite E; reflexivity.
Qed.

(** X11. [validate] leaves a section and a date set, and validating the
    options it leaves again, at whatever time, changes nothing: the calls
    repeated by [GenerateDocs] and [GenerateOnePage] keep what the first
    call has set. *)
Theorem X11_validate_is_idempotent
  (now now' : Time) (opts o : cobraman.Options Time Data)
  (templateName : string) :
  cobraman.validate Time Data GetTemplate now opts templateName = Some o ->
  cobraman.validate Time Data GetTemplate now' o templateName = Some o
  /\ cobraman.Section _ _ o <> ""
  /\ cobraman.Date _ _ o <> None.
Proof.
  intros H. split; [exact (validate_again now now' opts o templateName H)|].
  exact (validate_Section now opts o templateName H).
Qed.

Variable now : Time.
Variables Create Close : string -> option error.

Lemma Command_nested_ind (P : cobraman.Command -> Prop) :
  (forall path available helpTopic commands,
      Forall P commands -> P (cobraman.Cmd path available helpTopic commands)) ->
  forall cmd, P cmd.
Proof.
  intros H. fix IH 1. intros [path available helpTopic commands].
  apply H. induction commands as [|c cs IHcs]; constructor;
    [apply IH | exact IHcs].
Qed.

Lemma subcommands_ext
  (gen1 gen2 : cobraman.Command -> cobraman.Options Time Data
               -> cobraman.run Time Data)
  (cs : list cobraman.Command) :
  Forall (fun c => forall o, gen1 c o = gen2 c o) cs ->
  forall opts created,
    cobraman.subcommands Time Data gen1 cs opts created
    = cobraman.subcommands Time Data gen2 cs opts created.
Proof.
  induction 1 as [|c cs Hc _ IH]; intros opts created; [reflexivity|].
  cbn [cobraman.subcommands]. destruct c as [p a h sub].
  destruct (negb a || h); [apply IH|]. rewrite Hc.
  destruct (gen2 _ opts) as [o cr [e|]|]; try reflexivity. apply IH.
Qed.

(** X12. What [GenerateDocs] returns, the files it creates and the options
    it leaves do not depend on the template run: once the file is created,
    the error of [GenerateOnePage] is replaced by the error of closing the
    file. *)
Theorem X12_page_error_is_replaced_by_close_error
  (Execute1 Execute2 : cobraman.Command -> cobraman.Options Time Data
                       -> option error)
  (cmd : cobraman.Command) (opts : cobraman.Options Time Data)
  (directory templateName : string) :
  cobraman.GenerateDocs Time Data GetTemplate now Create Close Execute1
    cmd opts directory templateName
  = cobraman.GenerateDocs Time Data GetTemplate now Create Close Execute2
      cmd opts directory templateName.
Proof.
  revert opts directory.
  induction cmd as [path available helpTopic commands IH]
    using Command_nested_ind.
  intros opts directory. cbn [cobraman.GenerateDocs].
  destruct (cobraman.validate _ _ _ _ opts templateName) as [o|];
    [|reflexivity].
  cbv zeta.
  rewrite (subcommands_ext
             (fun c opts0 =>
                cobraman.GenerateDocs Time Data GetTemplate now Create Close
                  Execute1 c opts0
                  (if directory =? "" then "." else directory) templateName)
             (fun c opts0 =>
                cobraman.GenerateDocs Time Data GetTemplate now Create Close
                  Execute2 c opts0
                  (if directory =? "" then "." else directory) templateName)).
  - destruct (cobraman.subcommands _ _ _ commands o [])
      as [o' created [e|]|]; try reflexivity.
    destruct (_ =? ""); [reflexivity|].
    destruct (Create _); [reflexivity|].
    unfold cobraman.GenerateOnePage.
    now destruct (cobraman.validate _ _ _ _ o' templateName).
  - eapply Forall_impl; [|exact IH]. intros c Hc o0. apply Hc.
Qed.

Variable Execute : cobraman.Command -> cobraman.Options Time Data
                   -> option error.

Lemma subcommands_Done
  (gen : cobraman.Command -> cobraman.Options Time Data
         -> cobraman.run Time Data)
  (cs : list cobraman.Command) (o : cobraman.Options Time Data) :
  Forall (fun c => exists created err, gen c o = cobraman.Done _ _ o created err)
         cs ->
  forall created, exists created' err,
    cobraman.subcommands Time Data gen cs o created
    = cobraman.Done _ _ o created' err.
Proof.
  induction 1 as [|c cs (cr & e & Hc) _ IH]; intros created.
  - now exists created, None.
  - cbn [cobraman.subcommands]. destruct c as [p a h sub].
    destruct (negb a || h); [apply IH|]. rewrite Hc.
    destruct e as [e|]; [now eexists _, _ | apply IH].
Qed.

(** X13. [GenerateDocs] panics exactly when the template name is unknown,
    whatever the command tree; otherwise it leaves the options as
    [validate] leaves them at its first call. *)
Theorem X13_GenerateDocs_panics_iff_template_unknown
  (cmd : cobraman.Command) (opts : cobraman.Options Time Data)
  (directory templateName : string) :
  match cobraman.validate Time Data GetTemplate now opts templateName with
  | None =>
      cobraman.GenerateDocs Time Data GetTemplate now Create Close Execute
        cmd opts directory templateName
      = cobraman.Panicked _ _
  | Some o =>
      exists created err,
        cobraman.GenerateDocs Time Data GetTemplate now Create Close Execute
          cmd opts directory templateName
        = cobraman.Done _ _ o created err
  end.
Proof.
  revert opts directory.
  induction cmd as [path available helpTopic commands IH]
    using Command_nested_ind.
  intros opts directory. cbn [cobraman.GenerateDocs].
  destruct (cobraman.validate _ _ _ _ opts templateName) as [o|] eqn:V;
    [|reflexivity].
  pose proof (validate_again now now opts o templateName V) as Vo.
  cbv zeta.
  destruct (subcommands_Done
              (fun c opts0 =>
                 cobraman.GenerateDocs Time Data GetTemplate now Create Close
                   Execute c opts0
                   (if directory =? "" then "." else directory) templateName)
              commands o) with (created := @nil string)
    as (created & e & ->).
  { eapply Forall_impl; [|exact IH]. intros c Hc.
    specialize (Hc o (if directory =? "" then "." else directory)).
    now rewrite Vo in Hc. }
  destruct e as [e|]; [now eexists _, _|].
  destruct (_ =? ""); [now eexists _, _|].
  destruct (Create _); [now eexists _, _|].
  unfold cobraman.GenerateOnePage. rewrite Vo. now eexists _, _.
Qed.

(** X14. For a command whose path is empty, [GenerateDocs] never returns a
    nil error. *)
Theorem X14_command_without_name_is_an_error
  (available helpTopic : bool) (commands : list cobraman.Command)
  (opts o : cobraman.Options Time Data) (directory templateName : string)
  (created : list string) (err : option error) :
  cobraman.GenerateDocs Time Data GetTemplate now Create Close Execute
    (cobraman.Cmd "" available helpTopic commands) opts directory templateName
  = cobraman.Done _ _ o created err ->
  err <> None.
Proof.
  cbn [cobraman.GenerateDocs].
  destruct (cobraman.validate _ _ _ _ opts templateName) as [o0|];
    [|discriminate].
  cbv zeta.
  destruct (cobraman.subcommands _ _ _ commands o0 [])
    as [o' created' [e|]|]; try discriminate.
  - intros H. injection H as _ _ <-. discriminate.
  - cbn. intros H. injection H as _ _ <-. discriminate.
Qed.

Lemma subcommands_passed_over
  (gen : cobraman.Command -> cobraman.Options Time Data
         -> cobraman.run Time Data)
  (before after : list cobraman.Command) (c : cobraman.Command) :
  match c with
  | cobraman.Cmd _ available helpTopic _ => negb available || helpTopic
  end = true ->
  forall opts created,
    cobraman.subcommands Time Data gen (before ++ c :: after) opts created
    = cobraman.subcommands Time Data gen (before ++ after) opts created.
Proof.
  intros Hc. induction before as [|b before IH]; intros opts created.
  - cbn [app cobraman.subcommands]. destruct c as [p a h sub].
    now rewrite Hc.
  - cbn [app cobraman.subcommands]. destruct b as [p a h sub].
    destruct (negb a || h); [apply IH|].
    destruct (gen _ opts) as [o cr [e|]|]; try reflexivity. apply IH.
Qed.

(** X15. A subcommand that is not available, or is a help topic, is passed
    over with everything below it: [GenerateDocs] does the same without
    it. *)
Theorem X15_unavailable_subcommand_is_passed_over
  (path sub : string) (available helpTopic available' helpTopic' : bool)
  (before after below : list cobraman.Command)
  (opts : cobraman.Options Time Data) (directory templateName : string) :
  negb available' || helpTopic' = true ->
  cobraman.GenerateDocs Time Data GetTemplate now Create Close Execute
    (cobraman.Cmd path available helpTopic
       (before ++ cobraman.Cmd sub available' helpTopic' below :: after))
    opts directory templateName
  = cobraman.GenerateDocs Time Data GetTemplate now Create Close Execute
      (cobraman.Cmd path available helpTopic (before ++ after))
      opts directory templateName.
Proof.
  intros H. cbn [cobraman.GenerateDocs].
  destruct (cobraman.validate _ _ _ _ opts templateName) as [o|];
    [|reflexivity].
  cbv zeta. rewrite subcommands_passed_over by exact H.
  destruct (cobraman.subcommands _ _ _ (before ++ after) o [])
    as [o' created [e|]|]; try reflexivity.
  destruct (_ =? ""); [reflexivity|].
  destruct (Create _); [reflexivity|].
  unfold cobraman.GenerateOnePage.
  now destruct (cobraman.validate _ _ _ _ o' templateName).
Qed.

End GeneratorFacts.

Lemma X11_witness :
  cobraman.validate nat unit registered 8 setOptions "troff"
  = Some setOptions.
Proof.
  apply (proj1 (X11_validate_is_idempotent nat unit registered 7 8
                  unsetOptions setOptions "troff" eq_refl)).
Defined.

Lemma X14_witness : Some cobraman.ErrMissingCommandName <> None.
Proof.
  apply (X14_command_without_name_is_an_error nat unit registered 7
           (fun _ => None) (fun _ => None) (fun _ _ => None) true false
           [cobraman.Cmd "app sub" true false []]%list
           unsetOptions setOptions "" "troff" ["app-sub.1"]%list
           (Some cobraman.ErrMissingCommandName)).
  vm_compute. reflexivity.
Defined.

Lemma X15_witness :
  cobraman.GenerateDocs nat unit registered 7
    (fun _ => None) (fun _ => None) (fun _ _ => None)
    (cobraman.Cmd "app" true false
       ([cobraman.Cmd "app a" true false []]
        ++ cobraman.Cmd "app b" false false
             [cobraman.Cmd "app b c" true false []]
           :: [cobraman.Cmd "app d" true false []])%list)
    unsetOptions "" "troff"
  = cobraman.GenerateDocs nat unit registered 7
      (fun _ => None) (fun _ => None) (fun _ _ => None)
      (cobraman.Cmd "app" true false
         ([cobraman.Cmd "app a" true false []]
          ++ [cobraman.Cmd "app d" true false []])%list)
      unsetOptions "" "troff".
Proof.
  exact (X15_unavailable_subcommand_is_passed_over nat unit registered 7
           (fun _ => None) (fun _ => None) (fun _ _ => None)
           "app" "app b" true false false false
           [cobraman.Cmd "app a" true false []]%list
           [cobraman.Cmd "app d" true false []]%list
           [cobraman.Cmd "app b c" true false []]%list
           unsetOptions "" "troff" eq_refl).
Defined.

Lemma fold_visitFlag (flags : list cobraman.Flag)
  (flagArray : list cobraman.manFlag) :
  fold_left cobraman.visitFlag flags flagArray
  = (flagArray ++ flat_map (cobraman.visitFlag []) flags)%list.
Proof.
  revert flagArray. induction flags as [|flag flags IH]; intros flagArray.
  - now rewrite app_nil_r.
  - cbn [fold_left flat_map]. rewrite IH. unfold cobraman.visitFlag.
    destruct (_ || _); [reflexivity|]. cbn [app].
    now rewrite <- app_assoc.
Qed.

(** X16. The flags of the page are, in the order of the visit, the flags
    that are neither deprecated nor hidden; each carries the name and the
    usage of its flag, and the shorthand of its flag unless that shorthand
    is deprecated. *)
Theorem X16_genFlagArray_shows_visible_flags (flags : list cobraman.Flag) :
  map cobraman.mfName (cobraman.genFlagArray flags)
  = map cobraman.Name (filter shownFlag flags)
  /\ forall mf, In mf (cobraman.genFlagArray flags) ->
       exists flag,
         In flag flags
         /\ cobraman.Hidden flag = false
         /\ cobraman.Deprecated flag = ""
         /\ cobraman.mfName mf = cobraman.Name flag
         /\ cobraman.mfUsage mf = cobraman.Usage flag
         /\ cobraman.mfShorthand mf
            = if cobraman.ShorthandDeprecated flag =? ""
              then cobraman.Shorthand flag else "".
Proof.
  unfold cobraman.genFlagArray. rewrite fold_visitFlag. cbn [app]. split.
  - induction flags as [|flag flags IH]; [reflexivity|].
    cbn [flat_map filter]. rewrite map_app, IH.
    unfold cobraman.visitFlag, shownFlag.
    now destruct (_ || _).
  - intros mf Hin. apply in_flat_map in Hin as (flag & Hf & Hm).
    exists flag. split; [assumption|].
    unfold cobraman.visitFlag in Hm.
    destruct (cobraman.Hidden flag); [rewrite orb_true_r in Hm; contradiction|].
    destruct (cobraman.Deprecated flag) as [|c d]; [|contradiction].
    cbn in Hm. destruct Hm as [<-|[]]. cbn. repeat split.
Qed.

Lemma X16_witness :
  map cobraman.mfName
    (cobraman.genFlagArray
       [{| cobraman.Name := "all"; cobraman.Shorthand := "a";
           cobraman.Usage := "show all"; cobraman.DefValue := "false";
           cobraman.NoOptDefVal := "true"; cobraman.Deprecated := "";
           cobraman.Hidden := false; cobraman.ShorthandDeprecated := "";
           cobraman.Annotations := []%list |};
        {| cobraman.Name := "old"; cobraman.Shorthand := "";
           cobraman.Usage := ""; cobraman.DefValue := "";
           cobraman.NoOptDefVal := ""; cobraman.Deprecated := "use all";
           cobraman.Hidden := false; cobraman.ShorthandDeprecated := "";
           cobraman.Annotations := []%list |}]%list)
  = ["all"]%list.
Proof.
  exact (proj1 (X16_genFlagArray_shows_visible_flags _)).
Defined.
